(** * Wind-turbine anomaly training notebook: threshold computation and
      orchestration glue

    A shallow embedding of the local logic of
    [lab/02 - Training with Pytorch.ipynb]:

    - the MAE / threshold cell (numpy reshape, transpose, mean, NaN zeroing);
    - the [pipeline.create] try/except;
    - the three polling loops;
    - the post-run cell with its assertion on the training-job list.

    Numbers are idealised IEEE values: NaN, the two infinities, and exact
    rationals for the finite values (no rounding, no overflow). *)

From Stdlib Require Import String Ascii ZArith QArith Qcanon Qcabs.
From Stdlib Require Import List Arith Lia Bool.
Import ListNotations.

Close Scope Q_scope.
Close Scope Qc_scope.
Open Scope nat_scope.

Set Implicit Arguments.

(* ================================================================== *)
(** ** Python exceptions and the result monad *)

Inductive exn : Type :=
| ValueError_reshape          (* cannot reshape array of size .. into shape .. *)
| ValueError_unpack           (* not enough / too many values to unpack *)
| ValueError_axes             (* axes don't match array *)
| ValueError_broadcast        (* operands could not be broadcast together *)
| AxisError                   (* axis is out of bounds *)
| AssertionError
| IndexError
| ClientError (code message : string)
| OtherError (name : string).

Inductive result (A : Type) : Type :=
| Ok (a : A)
| Raise (e : exn).
Arguments Ok {A} a.
Arguments Raise {A} e.

Definition bind {A B} (m : result A) (k : A -> result B) : result B :=
  match m with
  | Ok a => k a
  | Raise e => Raise e
  end.

Notation "x <- m ;; k" := (bind m (fun x => k))
  (at level 61, m at next level, right associativity).

(* ================================================================== *)
(** ** Idealised floating-point values *)

Module Float.

Inductive fval : Type :=
| NaN
| Inf (neg : bool)
| Fin (q : Qc).

Definition zero : fval := Fin 0%Qc.

Definition isnan (x : fval) : bool :=
  match x with NaN => true | _ => false end.

Definition fneg (x : fval) : fval :=
  match x with
  | NaN => NaN
  | Inf s => Inf (negb s)
  | Fin q => Fin (- q)%Qc
  end.

Definition fadd (x y : fval) : fval :=
  match x, y with
  | NaN, _ | _, NaN => NaN
  | Inf s, Inf s' => if Bool.eqb s s' then Inf s else NaN
  | Inf s, Fin _ | Fin _, Inf s => Inf s
  | Fin p, Fin q => Fin (p + q)%Qc
  end.

Definition fsub (x y : fval) : fval := fadd x (fneg y).

Definition fabs (x : fval) : fval :=
  match x with
  | NaN => NaN
  | Inf _ => Inf false
  | Fin q => Fin (Qcabs q)
  end.

(** The count of a reduction as a rational. *)
Definition of_nat (n : nat) : Qc := Q2Qc (inject_Z (Z.of_nat n)).

Definition Qc_eqb (p q : Qc) : bool :=
  if Qc_eq_dec p q then true else false.

Definition Qc_ltb (p q : Qc) : bool :=
  match (p ?= q)%Qc with Lt => true | _ => false end.

(** True division of a value by an element count ([sum / count] in
    [np.mean]); the count is a non-negative integer, so [x / 0] is NaN for
    [x = 0] and an infinity of the sign of [x] otherwise. *)
Definition fdivn (x : fval) (n : nat) : fval :=
  match x with
  | NaN => NaN
  | Inf s => Inf s
  | Fin q =>
      match n with
      | O => if Qc_eqb q 0%Qc then NaN else Inf (Qc_ltb q 0%Qc)
      | S _ => Fin (q / of_nat n)%Qc
      end
  end.

(** [np.add.reduce] over a list of values (the empty sum is 0). *)
Definition fsum (l : list fval) : fval := fold_left fadd l zero.

(** [sum / count]. *)
Definition fmean (l : list fval) : fval := fdivn (fsum l) (length l).

(** The value stored by [a[np.isnan(a)] = 0] at a position holding [v]. *)
Definition nan_to_zero (v : fval) : fval := if isnan v then zero else v.

(** [x >= 0] on floats: false for NaN. *)
Definition nonneg (x : fval) : Prop :=
  match x with
  | NaN => False
  | Inf s => s = false
  | Fin q => (0 <= q)%Qc
  end.

(** A value that is not negative once NaN is set aside: NaN, [+inf] or a
    non-negative rational. *)
Definition nonneg_or_nan (x : fval) : Prop :=
  match x with
  | NaN => True
  | Inf s => s = false
  | Fin q => (0 <= q)%Qc
  end.

Definition zero_or_nan (x : fval) : Prop := x = NaN \/ x = zero.

End Float.
Import Float.

(* ================================================================== *)
(** ** The fragment of numpy used by the notebook

    An array is its shape and its elements in C (row-major) order.  A
    transposed array is a strided view in numpy; here the view is
    materialised, so [data] always lists the elements in the row-major order
    of the array's own [shape]. *)

Module Numpy.

Definition size_of (s : list nat) : nat := fold_right Nat.mul 1 s.

Record ndarray : Type := mk_ndarray { shape : list nat; data : list fval }.

Definition ndim (a : ndarray) : nat := length (shape a).
Definition size (a : ndarray) : nat := size_of (shape a).

(** Well-formed arrays carry exactly [size] elements. *)
Definition wf (a : ndarray) : Prop := length (data a) = size a.

(** [a.reshape(newshape)]: same elements in the same order; fails when the
    element counts differ. *)
Definition reshape (a : ndarray) (newshape : list nat) : result ndarray :=
  if size_of newshape =? size a
  then Ok (mk_ndarray newshape (data a))
  else Raise ValueError_reshape.

(** Element strides of a C-contiguous array of shape [s]. *)
Fixpoint strides (s : list nat) : list nat :=
  match s with
  | [] => []
  | _ :: rest => size_of rest :: strides rest
  end.

(** All multi-indices of shape [s], in row-major order. *)
Fixpoint indices (s : list nat) : list (list nat) :=
  match s with
  | [] => [[]]
  | d :: rest => flat_map (fun i => map (cons i) (indices rest)) (seq 0 d)
  end.

Fixpoint offset (idx st : list nat) : nat :=
  match idx, st with
  | i :: idx', k :: st' => i * k + offset idx' st'
  | _, _ => 0
  end.

Definition is_permutation_of_axes (axes : list nat) (n : nat) : bool :=
  (length axes =? n) && forallb (fun k => existsb (Nat.eqb k) axes) (seq 0 n).

(** [a.transpose(axes)]: axis [j] of the result is axis [axes[j]] of [a]. *)
Definition transpose (a : ndarray) (axes : list nat) : result ndarray :=
  if is_permutation_of_axes axes (ndim a) then
    let shape' := map (fun k => nth k (shape a) 0) axes in
    let strides' := map (fun k => nth k (strides (shape a)) 0) axes in
    Ok (mk_ndarray shape'
          (map (fun idx => nth (offset idx strides') (data a) NaN)
               (indices shape')))
  else Raise ValueError_axes.

Fixpoint map2 {A B C} (f : A -> B -> C) (l : list A) (l' : list B) : list C :=
  match l, l' with
  | x :: t, y :: t' => f x y :: map2 f t t'
  | _, _ => []
  end.

Definition shape_eqb (s s' : list nat) : bool :=
  if list_eq_dec Nat.eq_dec s s' then true else false.

(** [a - b] for operands of one shape, the only case the notebook reaches
    (both operands come out of the same reshape and transpose). *)
Definition subtract (a b : ndarray) : result ndarray :=
  if shape_eqb (shape a) (shape b)
  then Ok (mk_ndarray (shape a) (map2 fsub (data a) (data b)))
  else Raise ValueError_broadcast.

(** [np.abs(a)]. *)
Definition abs (a : ndarray) : ndarray :=
  mk_ndarray (shape a) (map fabs (data a)).

(** [np.mean(a, axis=axis)]: the axis is removed from the shape and every
    lane along it is replaced by its sum divided by its length. *)
Definition mean (a : ndarray) (axis : nat) : result ndarray :=
  if axis <? ndim a then
    let outer := size_of (firstn axis (shape a)) in
    let len := nth axis (shape a) 0 in
    let inner := size_of (skipn (S axis) (shape a)) in
    Ok (mk_ndarray (firstn axis (shape a) ++ skipn (S axis) (shape a))
          (flat_map (fun o =>
             map (fun i =>
                    fmean (map (fun b => nth ((o * len + b) * inner + i) (data a) NaN)
                               (seq 0 len)))
                 (seq 0 inner))
             (seq 0 outer)))
  else Raise AxisError.

(** [a[i0, i1, ...]]. *)
Definition getitem (a : ndarray) (idx : list nat) : fval :=
  nth (offset idx (strides (shape a))) (data a) NaN.

(** [a[np.isnan(a)] = 0]. *)
Definition setitem_isnan_zero (a : ndarray) : ndarray :=
  mk_ndarray (shape a) (map nan_to_zero (data a)).

End Numpy.
Import Numpy.

(* ================================================================== *)
(** ** The MAE / threshold cell *)

Module Thresholds.

(** The reduction: [np.mean(np.abs(y_preds - x_inputs), axis=1)], its
    transposition, and the NaN zeroing. *)
Definition reduce (x_inputs' y_preds' : ndarray) : result ndarray :=
  d <- subtract y_preds' x_inputs' ;;
  m <- mean (abs d) 1 ;;
  mae <- transpose m [1; 0] ;;
  Ok (setitem_isnan_zero mae).

(** The cell up to and including the NaN zeroing: the value of [mae_loss]
    when [thresholds] is computed.  [x_inputs] and [y_preds] are the two
    stacked arrays. *)
Definition mae_loss (x_inputs y_preds : ndarray) : result ndarray :=
  match shape x_inputs with
  | [n_samples; n_features; n_rows; n_cols] =>
      x1 <- reshape x_inputs [n_samples; n_features; n_rows * n_cols] ;;
      x_inputs' <- transpose x1 [0; 2; 1] ;;
      y1 <- reshape y_preds [n_samples; n_features; n_rows * n_cols] ;;
      y_preds' <- transpose y1 [0; 2; 1] ;;
      reduce x_inputs' y_preds'
  | _ => Raise ValueError_unpack
  end.

(** [thresholds = np.mean(mae_loss, axis=1)]. *)
Definition thresholds (x_inputs y_preds : ndarray) : result ndarray :=
  mae <- mae_loss x_inputs y_preds ;;
  mean mae 1.

(** *** Closed forms, for stacks of shape [(N, F, R, C)] *)

(** Element [(n, f, k)] of a stack seen with shape [(N, F, K)], by its flat
    row-major position. *)
Definition at3 (F K : nat) (a : ndarray) (n f k : nat) : fval :=
  nth ((n * F + f) * K + k) (data a) NaN.

(** Mean absolute difference of sample [n] at feature [f] over the [K]
    locations. *)
Definition lane_mae (F K : nat) (x y : ndarray) (n f : nat) : fval :=
  fmean (map (fun k => fabs (fsub (at3 F K y n f k) (at3 F K x n f k)))
             (seq 0 K)).

(** The expected threshold of feature [f]. *)
Definition expected_threshold (N F K : nat) (x y : ndarray) (f : nat) : fval :=
  fmean (map (fun n => nan_to_zero (lane_mae F K x y n f)) (seq 0 N)).

(** The same values written over the four-dimensional stacks: the absolute
    difference at one position and its mean over all (row, column)
    locations. *)
Definition abs_diff (x y : ndarray) (idx : list nat) : fval :=
  fabs (fsub (getitem y idx) (getitem x idx)).

Definition location_mean (R C : nat) (x y : ndarray) (n f : nat) : fval :=
  fmean (flat_map (fun r => map (fun c => abs_diff x y [n; f; r; c]) (seq 0 C))
                  (seq 0 R)).

(** *** The expected thresholds, written without the array operations

    Elements are taken at their flat row-major position in the stack as
    loaded; the absolute difference and the replacement of NaN are written
    by cases on the two values. *)







End Thresholds.
Import Thresholds.

(* ================================================================== *)
(** ** Notebook cells as scripts

    A cell runs top to bottom, calls external services, prints and sleeps;
    it finishes with a value, stops at the first uncaught exception, or is
    still inside a wait loop when the observation ends. *)

Module Script.

Inductive event : Type :=
| Call (api arg : string)
| Printed (s : string)
| Sleep (seconds : nat).

Inductive outcome (A : Type) : Type :=
| Done (a : A)
| Raised (e : exn)
| Pending.
Arguments Done {A} a.
Arguments Raised {A} e.
Arguments Pending {A}.

Definition script (A : Type) : Type := (list event * outcome A)%type.

Definition ret {A} (a : A) : script A := ([], Done a).

Definition sbind {A B} (m : script A) (k : A -> script B) : script B :=
  match m with
  | (t, Done a) => let '(t', r) := k a in (t ++ t', r)
  | (t, Raised e) => (t, Raised e)
  | (t, Pending) => (t, Pending)
  end.

Definition raise {A} (e : exn) : script A := ([], Raised e).

Definition of_result {A} (r : result A) : script A :=
  match r with
  | Ok a => ([], Done a)
  | Raise e => ([], Raised e)
  end.

(** An external call: it is issued, then answers or raises. *)
Definition call {A} (api arg : string) (answer : result A) : script A :=
  match answer with
  | Ok a => ([Call api arg], Done a)
  | Raise e => ([Call api arg], Raised e)
  end.

Definition print (s : string) : script unit := ([Printed s], Done tt).

Definition sleep (seconds : nat) : script unit := ([Sleep seconds], Done tt).

(** [assert cond]. *)
Definition assert (cond : bool) : script unit :=
  if cond then ret tt else raise AssertionError.

(** [try: body / except ClientError as e: handler]: only a [ClientError]
    reaches the handler; any other exception leaves the statement. *)
Definition try_except_ClientError {A} (body : script A)
    (handler : string -> string -> script A) : script A :=
  match body with
  | (t, Raised (ClientError code message)) =>
      let '(t', r) := handler code message in (t ++ t', r)
  | other => other
  end.

Definition trace {A} (m : script A) : list event := fst m.
Definition result_of {A} (m : script A) : outcome A := snd m.

End Script.
Import Script.

Notation "x <~ m ;; k" := (sbind m (fun x => k))
  (at level 61, m at next level, right associativity).
Notation "m ;;; k" := (sbind m (fun _ => k))
  (at level 61, right associativity).

(** Python string helpers. *)
Module PyString.

(** [needle in hay]. *)
Fixpoint contains (needle hay : string) : bool :=
  String.prefix needle hay
  || match hay with
     | EmptyString => false
     | String _ rest => contains needle rest
     end.

(** [s.split(sep, maxsplit)] for a one-character separator; [cur] is the
    token being read. *)
Fixpoint split_from (sep : ascii) (maxsplit : nat) (cur s : string) : list string :=
  match s with
  | EmptyString => [cur]
  | String c rest =>
      match maxsplit with
      | S m => if Ascii.eqb c sep
               then cur :: split_from sep m EmptyString rest
               else split_from sep maxsplit (String.append cur (String c EmptyString)) rest
      | O => split_from sep maxsplit (String.append cur (String c EmptyString)) rest
      end
  end.

Definition split_max (sep : ascii) (maxsplit : nat) (s : string) : list string :=
  split_from sep maxsplit EmptyString s.

(** [s.split(sep)]: no limit on the number of splits. *)
Definition split (sep : ascii) (s : string) : list string :=
  split_max sep (String.length s) s.

(** [l[-1]] of a non-empty list of strings. *)
Definition last_item (l : list string) : string := last l EmptyString.

End PyString.
Import PyString.

(* ================================================================== *)
(** ** Creating the pipeline *)

Module Pipeline.

Record response : Type := mk_response { PipelineArn : string }.

(** What the managed service answers to the calls of the cell. *)
Record service : Type := mk_service {
  create : result response;
  describe : result response;
  add_tags : string -> result unit
}.

(** The rest of the cell once [response] is bound. *)
Definition tag_and_print (svc : service) (response : response) : script string :=
  let pipeline_arn := PipelineArn response in
  call "add_tags" pipeline_arn (add_tags svc pipeline_arn) ;;;
  print pipeline_arn ;;;
  ret pipeline_arn.

Definition create_pipeline_cell (svc : service) : script string :=
  response <~ try_except_ClientError
                (call "pipeline.create" "role" (create svc))
                (fun code message =>
                   if String.eqb code "ValidationError"
                      && contains "Pipeline names must be unique within" message
                   then print message ;;;
                        call "pipeline.describe" EmptyString (describe svc)
                   else raise (ClientError code message)) ;;
  tag_and_print svc response.

End Pipeline.

(* ================================================================== *)
(** ** The wait loops *)

Module Polling.

(** [while True: resp = describe(); if running(status): print('Running...')
    else: print(status, name); break; time.sleep(interval)].

    [describe i] is the answer to the [i]-th describe call; [fuel] bounds
    the number of iterations observed. *)
Fixpoint wait_loop (api job : string) (running : string -> bool)
    (interval : nat) (printed : string)
    (describe : nat -> result string) (i fuel : nat) : script string :=
  match fuel with
  | O => ([], Pending)
  | S fuel' =>
      status <~ call api job (describe i) ;;
      if running status then
        print "Running..." ;;;
        sleep interval ;;;
        wait_loop api job running interval printed describe (S i) fuel'
      else
        print (String.append status (String.append " " printed)) ;;;
        ret status
  end.

(** [resp['PipelineExecutionStatus'] == 'Executing'], [time.sleep(30)]. *)
Definition wait_pipeline_execution (pipeline_execution_arn : string) :=
  wait_loop "describe_pipeline_execution" pipeline_execution_arn
    (fun status => String.eqb status "Executing") 30 pipeline_execution_arn.

Definition in_list (status : string) (l : list string) : bool :=
  existsb (String.eqb status) l.

(** [resp['CompilationJobStatus'] in ['STARTING', 'INPROGRESS']],
    [time.sleep(5)]. *)
Definition wait_compilation_job (compilation_job_name : string) :=
  wait_loop "describe_compilation_job" compilation_job_name
    (fun status => in_list status ["STARTING"; "INPROGRESS"]%string) 5
    compilation_job_name.

(** [resp['EdgePackagingJobStatus'] in ['STARTING', 'INPROGRESS']],
    [time.sleep(5)]; the last line prints [compilation_job_name]. *)
Definition wait_edge_packaging_job (edge_packaging_job_name compilation_job_name : string) :=
  wait_loop "describe_edge_packaging_job" edge_packaging_job_name
    (fun status => in_list status ["STARTING"; "INPROGRESS"]%string) 5
    compilation_job_name.

(** The three loops under one index. *)
Inductive loop : Type := PipelineExecution | CompilationJob | EdgePackagingJob.

Definition run (w : loop) (name other : string) :=
  match w with
  | PipelineExecution => wait_pipeline_execution name
  | CompilationJob => wait_compilation_job name
  | EdgePackagingJob => wait_edge_packaging_job name other
  end.

Definition running_set (w : loop) : list string :=
  match w with
  | PipelineExecution => ["Executing"]%string
  | CompilationJob | EdgePackagingJob => ["STARTING"; "INPROGRESS"]%string
  end.

Definition sleep_interval (w : loop) : nat :=
  match w with
  | PipelineExecution => 30
  | CompilationJob | EdgePackagingJob => 5
  end.

Definition describe_api (w : loop) : string :=
  match w with
  | PipelineExecution => "describe_pipeline_execution"
  | CompilationJob => "describe_compilation_job"
  | EdgePackagingJob => "describe_edge_packaging_job"
  end.

(** The test of each loop on the status it reads. *)
Definition running_test (w : loop) : string -> bool :=
  match w with
  | PipelineExecution => fun status => String.eqb status "Executing"
  | CompilationJob | EdgePackagingJob =>
      fun status => in_list status ["STARTING"; "INPROGRESS"]%string
  end.

(** The name on the last printed line. *)
Definition printed_name (w : loop) (name other : string) : string :=
  match w with
  | EdgePackagingJob => other
  | _ => name
  end.

(** The events of one iteration that finds the job still running, and of
    the iteration that leaves the loop on status [s]. *)
Definition again (api job : string) (interval : nat) : list event :=
  [Call api job; Printed "Running..."; Sleep interval].

Definition leave (api job printed s : string) : list event :=
  [Call api job; Printed (String.append s (String.append " " printed))].

Definition running_iteration (w : loop) (name : string) : list event :=
  again (describe_api w) name (sleep_interval w).

Definition last_iteration (w : loop) (name other s : string) : list event :=
  leave (describe_api w) name (printed_name w name other) s.

End Polling.

(* ================================================================== *)
(** ** Parts 3 and 4: from the finished pipeline execution to deployment *)

Module PostRun.

Record estimator : Type := mk_estimator { output_path : string }.

(** What the outside world answers to the calls of these cells.  Job names
    are built from clock readings; [show] is the text of the thresholds
    printed by the threshold cell. *)
Record services : Type := mk_services {
  get_execution_role : result string;
  list_training_jobs : string -> string -> result (list string);
  attach : string -> result estimator;
  describe_training_job : string -> result string;
  download_data : string -> string -> string -> result unit;
  load_inputs : result ndarray;
  load_preds : result ndarray;
  save : ndarray -> result unit;
  show : ndarray -> string;
  compilation_job_name : string;
  edge_packaging_job_name : string;
  create_compilation_job : string -> result unit;
  describe_compilation_job : nat -> result string;
  create_edge_packaging_job : string -> string -> result unit;
  describe_edge_packaging_job : nat -> result string;
  get_caller_identity : result string;
  create_job : result unit
}.

(** [l[i]]. *)
Definition list_getitem (l : list string) (i : nat) : result string :=
  match nth_error l i with
  | Some s => Ok s
  | None => Raise IndexError
  end.

(** [execution_id = pipeline_execution_arn.split('/')[-1]]. *)
Definition execution_id (pipeline_execution_arn : string) : string :=
  last_item (split "/" pipeline_execution_arn).

(** The cell that recovers the training job of the execution.  Building the
    client and session objects calls no service; reading the execution role
    does. *)
Definition setup_cell (svc : services) (pipeline_execution_arn : string)
  : script (string * estimator) :=
  role <~ call "get_execution_role" "sagemaker" (get_execution_role svc) ;;
  let execution_id := execution_id pipeline_execution_arn in
  training_jobs <~ call "list_training_jobs" execution_id
                     (list_training_jobs svc execution_id "Completed") ;;
  assert (length training_jobs =? 1) ;;;
  training_job_name <~ of_result (list_getitem training_jobs 0) ;;
  estimator <~ call "Estimator.attach" training_job_name
                 (attach svc training_job_name) ;;
  input_data <~ call "describe_training_job" training_job_name
                  (describe_training_job svc training_job_name) ;;
  let tokens := split_max "/" 3 input_data in
  bucket <~ of_result (list_getitem tokens 2) ;;
  key_prefix <~ of_result (list_getitem tokens 3) ;;
  call "download_data" "data/input/"
       (download_data svc bucket key_prefix "data/input/") ;;;
  ret (training_job_name, estimator).

(** The MAE / threshold cell with its file accesses. *)
Definition thresholds_cell (svc : services) : script ndarray :=
  x_inputs <~ call "np.load" "data/input/*.npy" (load_inputs svc) ;;
  y_preds <~ call "np.load" "data/preds/*.out" (load_preds svc) ;;
  t <~ of_result (thresholds x_inputs y_preds) ;;
  call "np.save" "statistics/thresholds.npy" (save svc t) ;;;
  print (show svc t) ;;;
  ret t.

Definition compilation_cell (svc : services) (fuel : nat) : script string :=
  let name := compilation_job_name svc in
  call "create_compilation_job" name (create_compilation_job svc name) ;;;
  Polling.wait_compilation_job name (describe_compilation_job svc) 0 fuel.

Definition edge_packaging_cell (svc : services) (fuel : nat) : script string :=
  let name := edge_packaging_job_name svc in
  call "create_edge_packaging_job" name
       (create_edge_packaging_job svc name (compilation_job_name svc)) ;;;
  Polling.wait_edge_packaging_job name (compilation_job_name svc)
    (describe_edge_packaging_job svc) 0 fuel.

(** The two deployment cells: the caller's account, then the fleet job. *)
Definition deployment_cell (svc : services) : script unit :=
  account_id <~ call "get_caller_identity" "sts" (get_caller_identity svc) ;;
  call "iot.create_job" "new_model" (create_job svc).

(** The cells in notebook order, from the setup cell on. *)
Definition from_setup_cell (svc : services) (pipeline_execution_arn : string)
    (fuel : nat) : script unit :=
  setup_cell svc pipeline_execution_arn ;;;
  thresholds_cell svc ;;;
  compilation_cell svc fuel ;;;
  edge_packaging_cell svc fuel ;;;
  deployment_cell svc.

End PostRun.

(* ================================================================== *)
(** ** Concrete inputs *)

Module Examples.

Definition qn (z : Z) : fval := Fin (Q2Qc (inject_Z z)).

(** One sample, two features, one row of two columns. *)
Definition x_small : ndarray :=
  mk_ndarray [1; 2; 1; 2] [qn 1; qn 2; qn 3; qn 4].
Definition y_small : ndarray :=
  mk_ndarray [1; 2; 1; 2] [qn 2; qn 2; qn 5; qn 4].

(** Two samples, two features, one row of two columns; the predictions are
    below the inputs at one position and NaN at another. *)
Definition x_pair : ndarray :=
  mk_ndarray [2; 2; 1; 2] [qn 1; qn 2; qn 3; qn 4; qn 5; qn 6; qn 7; qn 8].
Definition y_pair : ndarray :=
  mk_ndarray [2; 2; 1; 2] [qn 0; qn 4; qn 3; qn 5; qn 5; qn 6; NaN; qn 9].

(** The same predictions as a flat vector of four elements. *)
Definition y_flat : ndarray := mk_ndarray [4] [qn 2; qn 2; qn 5; qn 4].

(** A stack with a NaN at one position. *)
Definition x_nan : ndarray :=
  mk_ndarray [1; 2; 1; 2] [qn 1; NaN; qn 3; qn 4].

(** One sample, two features, a single location. *)
Definition x_two_features : ndarray := mk_ndarray [1; 2; 1; 1] [qn 1; qn 2].

(** A stack of zero samples of shape [(0, 1, 1, 1)]. *)
Definition x_empty : ndarray := mk_ndarray [0; 1; 1; 1] [].

(** A service that reports the pipeline name as taken. *)
Definition taken : Pipeline.service :=
  Pipeline.mk_service
    (Raise (ClientError "ValidationError"
       "Pipeline names must be unique within an AWS account and region"))
    (Ok (Pipeline.mk_response "arn:aws:sagemaker:pipeline/windturbine"))
    (fun _ => Ok tt).

(** A service whose creation call is throttled. *)
Definition throttled : Pipeline.service :=
  Pipeline.mk_service
    (Raise (ClientError "ThrottlingException" "Rate exceeded"))
    (Ok (Pipeline.mk_response "arn:aws:sagemaker:pipeline/windturbine"))
    (fun _ => Ok tt).

(** A job seen running at two polls and finished at the third. *)
Definition two_polls_then (running finished : string) (i : nat) : result string :=
  if i <? 2 then Ok running else Ok finished.

(** An account in which no completed training job matches. *)
Definition no_training_job : PostRun.services :=
  PostRun.mk_services
    (Ok "arn:aws:iam::role/sagemaker"%string)
    (fun _ _ => Ok [])
    (fun _ => Ok (PostRun.mk_estimator "s3://bucket/output/"))
    (fun _ => Ok "s3://bucket/wind_turbine/input"%string)
    (fun _ _ _ => Ok tt)
    (Ok x_small) (Ok y_small)
    (fun _ => Ok tt) (fun _ => EmptyString)
    "wind-turbine-anomaly-1" "wind-turbine-anomaly-2"
    (fun _ => Ok tt) (two_polls_then "INPROGRESS" "COMPLETED")
    (fun _ _ => Ok tt) (two_polls_then "INPROGRESS" "COMPLETED")
    (Ok "123456789012"%string)
    (Ok tt).

End Examples.
Import Examples.

(* ================================================================== *)
(** ** Measures on strings and traces *)

Module Measures.

(** Number of occurrences of the character [sep] in [s]. *)
Fixpoint count_char (sep : ascii) (s : string) : nat :=
  match s with
  | EmptyString => 0
  | String c rest => (if Ascii.eqb c sep then 1 else 0) + count_char sep rest
  end.

(** [sep.join(l)]. *)
Fixpoint join (sep : string) (l : list string) : string :=
  match l with
  | [] => EmptyString
  | [t] => t
  | t :: rest => String.append t (String.append sep (join sep rest))
  end.

(** Seconds slept along a trace. *)
Fixpoint slept (t : list event) : nat :=
  match t with
  | [] => 0
  | Sleep n :: rest => n + slept rest
  | _ :: rest => slept rest
  end.

(** Number of calls to [api] along a trace. *)
Fixpoint calls_to (api : string) (t : list event) : nat :=
  match t with
  | [] => 0
  | Call a _ :: rest => (if String.eqb a api then 1 else 0) + calls_to api rest
  | _ :: rest => calls_to api rest
  end.

End Measures.
Import Measures.

(** Further concrete inputs. *)
Module MoreExamples.

(** A three-dimensional array. *)
Definition x_3d : ndarray := mk_ndarray [2; 1; 2] [qn 1; qn 2; qn 3; qn 4].

(** One sample, two features, no location at all. *)
Definition x_no_location : ndarray := mk_ndarray [1; 2; 0; 3] [].

(** Zero samples of three features. *)
Definition x_no_sample : ndarray := mk_ndarray [0; 3; 1; 2] [].

(** [x_nan] with its second feature changed. *)
Definition x_nan' : ndarray :=
  mk_ndarray [1; 2; 1; 2] [qn 1; NaN; qn 7; qn 9].
Definition y_small' : ndarray :=
  mk_ndarray [1; 2; 1; 2] [qn 2; qn 2; qn 0; NaN].

(** An account with one completed training job, whose training input is
    at [uri], whose predictions load as [y], and whose compilation and
    packaging jobs answer [compile_status] and [edge_status]. *)
Definition account (uri : string) (y : ndarray)
    (compile_status edge_status : nat -> result string) : PostRun.services :=
  PostRun.mk_services
    (Ok "arn:aws:iam::role/sagemaker"%string)
    (fun _ _ => Ok ["pipelines-abc123-train"%string])
    (fun _ => Ok (PostRun.mk_estimator "s3://bucket/output/"))
    (fun _ => Ok uri)
    (fun _ _ _ => Ok tt)
    (Ok x_small) (Ok y)
    (fun _ => Ok tt) (fun _ => EmptyString)
    "wind-turbine-anomaly-1" "wind-turbine-anomaly-2"
    (fun _ => Ok tt) compile_status
    (fun _ _ => Ok tt) edge_status
    (Ok "123456789012"%string)
    (Ok tt).

(** An account whose compilation and packaging jobs both end as failed. *)
Definition failed_jobs : PostRun.services :=
  account "s3://bucket/wind/train" y_small
    (two_polls_then "INPROGRESS" "FAILED")
    (two_polls_then "STARTING" "FAILED").

(** A service that creates the pipeline at once. *)
Definition fresh : Pipeline.service :=
  Pipeline.mk_service
    (Ok (Pipeline.mk_response "arn:aws:sagemaker:pipeline/new"))
    (Ok (Pipeline.mk_response "arn:aws:sagemaker:pipeline/old"))
    (fun _ => Ok tt).

(** A job seen running at two polls; the third describe call fails. *)
Definition two_polls_then_fails (running : string) (i : nat) : result string :=
  if i <? 2 then Ok running else Raise (ClientError "ThrottlingException" "Rate exceeded").

End MoreExamples.
Import MoreExamples.

(* ================================================================== *)
(** ** Row-major tabulations *)

Section Tabulate.

Context {A : Type}.

Lemma map_flat_map_comm {B C} (f : B -> C) (g : A -> list B) (l : list A) :
  map f (flat_map g l) = flat_map (fun x => map f (g x)) l.
Proof.
  induction l as [|x l IH]; simpl; [reflexivity|].
  now rewrite map_app, IH.
Qed.

Lemma flat_map_singleton {B} (h : A -> B) (l : list A) :
  flat_map (fun x => [h x]) l = map h l.
Proof.
  induction l as [|x l IH]; simpl; [reflexivity|now rewrite IH].
Qed.

Lemma flat_map_uniform_length (G : nat -> list A) (I : nat) :
  (forall o, length (G o) = I) ->
  forall l, length (flat_map G l) = length l * I.
Proof.
  intros HG l. induction l as [|x l IH]; simpl; [reflexivity|].
  now rewrite length_app, HG, IH.
Qed.

Lemma nth_flat_map_uniform (G : nat -> list A) (I : nat) (d : A) :
  (forall o, length (G o) = I) ->
  forall O s o i, o < O -> i < I ->
  nth (o * I + i) (flat_map G (seq s O)) d = nth i (G (s + o)) d.
Proof.
  intros HG O. induction O as [|O IH]; intros s o i Ho Hi; [lia|].
  simpl. destruct o as [|o].
  - rewrite app_nth1 by (rewrite HG; lia).
    simpl. now rewrite Nat.add_0_r.
  - rewrite app_nth2 by (rewrite HG; simpl; lia).
    rewrite HG.
    replace (S o * I + i - I) with (o * I + i) by (simpl; lia).
    rewrite IH by lia. f_equal. f_equal. lia.
Qed.

Lemma nth_map_seq (g : nat -> A) (d : A) (n i : nat) :
  i < n -> nth i (map g (seq 0 n)) d = g i.
Proof.
  intros Hi. rewrite (nth_indep _ d (g 0)) by (now rewrite length_map, length_seq).
  rewrite map_nth, seq_nth by assumption. reflexivity.
Qed.

End Tabulate.

Lemma index_in_range (a b n m : nat) : a < n -> b < m -> a * m + b < n * m.
Proof. intros. nia. Qed.

Lemma map_indices_cons {B} (h : list nat -> B) (d : nat) (s : list nat) :
  map h (indices (d :: s))
  = flat_map (fun i => map (fun idx => h (i :: idx)) (indices s)) (seq 0 d).
Proof.
  simpl. rewrite map_flat_map_comm. apply flat_map_ext. intros i.
  now rewrite map_map.
Qed.

Lemma map_indices_1 {B} (h : list nat -> B) (d : nat) :
  map h (indices [d]) = map (fun i => h [i]) (seq 0 d).
Proof.
  rewrite map_indices_cons. simpl. apply flat_map_singleton.
Qed.

(** The two transpositions of the cell, as tabulations of the source data. *)
Lemma transpose_021 (n f k : nat) (dat : list fval) :
  transpose (mk_ndarray [n; f; k] dat) [0; 2; 1]
  = Ok (mk_ndarray [n; k; f]
          (flat_map (fun a =>
             flat_map (fun c =>
               map (fun b => nth ((a * f + b) * k + c) dat NaN) (seq 0 f))
             (seq 0 k))
           (seq 0 n))).
Proof.
  unfold transpose.
  change (is_permutation_of_axes _ _) with true. cbv iota.
  cbn [shape data map nth strides].
  f_equal. f_equal.
  rewrite map_indices_cons. apply flat_map_ext. intros a.
  rewrite map_indices_cons. apply flat_map_ext. intros c.
  rewrite map_indices_1. apply map_ext. intros b.
  f_equal. simpl. lia.
Qed.

Lemma transpose_10 (n f : nat) (dat : list fval) :
  transpose (mk_ndarray [n; f] dat) [1; 0]
  = Ok (mk_ndarray [f; n]
          (flat_map (fun a => map (fun b => nth (b * f + a) dat NaN) (seq 0 n))
                    (seq 0 f))).
Proof.
  unfold transpose.
  change (is_permutation_of_axes _ _) with true. cbv iota.
  cbn [shape data map nth strides].
  f_equal. f_equal.
  rewrite map_indices_cons. apply flat_map_ext. intros a.
  rewrite map_indices_1. apply map_ext. intros b.
  f_equal. simpl. lia.
Qed.

Lemma flat_map_ext_in {A B} (g h : A -> list B) (l : list A) :
  (forall x, In x l -> g x = h x) -> flat_map g l = flat_map h l.
Proof.
  induction l as [|x l IH]; intros H; simpl; [reflexivity|].
  rewrite (H x) by now left. f_equal. apply IH. intros y Hy. apply H. now right.
Qed.

Lemma mean_3d_axis1 (n k f : nat) (dat : list fval) :
  mean (mk_ndarray [n; k; f] dat) 1
  = Ok (mk_ndarray [n; f]
          (flat_map (fun a =>
             map (fun c =>
                    fmean (map (fun b => nth ((a * k + b) * f + c) dat NaN) (seq 0 k)))
                 (seq 0 f))
           (seq 0 n))).
Proof.
  unfold mean. change (1 <? _) with true. cbv iota.
  cbn [shape data firstn skipn nth app size_of fold_right].
  rewrite !Nat.mul_1_r. reflexivity.
Qed.

Lemma mean_2d_axis1 (f n : nat) (dat : list fval) :
  mean (mk_ndarray [f; n] dat) 1
  = Ok (mk_ndarray [f]
          (map (fun a => fmean (map (fun b => nth (a * n + b) dat NaN) (seq 0 n)))
               (seq 0 f))).
Proof.
  unfold mean. change (1 <? _) with true. cbv iota.
  cbn [shape data firstn skipn nth app size_of fold_right seq map].
  rewrite !Nat.mul_1_r. f_equal. f_equal.
  rewrite <- flat_map_singleton. apply flat_map_ext. intros a.
  f_equal. f_equal. apply map_ext. intros b. f_equal. lia.
Qed.

Lemma nth_map2 {A B C} (g : A -> B -> C) (l : list A) (l' : list B) dc da db :
  length l = length l' ->
  forall i, i < length l ->
  nth i (map2 g l l') dc = g (nth i l da) (nth i l' db).
Proof.
  revert l'. induction l as [|x l IH]; intros [|y l'] Hlen i Hi; simpl in *;
    try lia.
  destruct i as [|i]; [reflexivity|]. apply IH; lia.
Qed.

Lemma nth_map_fabs (l : list fval) (i : nat) :
  nth i (map fabs l) NaN = fabs (nth i l NaN).
Proof. exact (map_nth fabs l NaN i). Qed.

Lemma shape_eqb_refl (s : list nat) : shape_eqb s s = true.
Proof. unfold shape_eqb. now destruct (list_eq_dec Nat.eq_dec s s). Qed.

Section Transposed.

Variables (N F R C : nat).

Lemma transposed_length (dat : list fval) :
  length (flat_map (fun a =>
             flat_map (fun c =>
               map (fun b => nth ((a * F + b) * (R * C) + c) dat NaN) (seq 0 F))
             (seq 0 (R * C)))
           (seq 0 N)) = N * (R * C * F).
Proof.
  rewrite (@flat_map_uniform_length _ _ (R * C * F)), length_seq; [reflexivity|].
  intros a. rewrite (@flat_map_uniform_length _ _ F), length_seq; [reflexivity|].
  intros c. now rewrite length_map, length_seq.
Qed.

Lemma transposed_nth (dat : list fval) (a b c : nat) :
  a < N -> b < R * C -> c < F ->
  nth ((a * (R * C) + b) * F + c)
      (flat_map (fun a =>
         flat_map (fun c =>
           map (fun b => nth ((a * F + b) * (R * C) + c) dat NaN) (seq 0 F))
         (seq 0 (R * C)))
       (seq 0 N)) NaN
  = nth ((a * F + c) * (R * C) + b) dat NaN.
Proof.
  intros Ha Hb Hc.
  replace ((a * (R * C) + b) * F + c) with (a * (R * C * F) + (b * F + c)) by lia.
  rewrite (@nth_flat_map_uniform _ _ (R * C * F)); try assumption.
  - rewrite (@nth_flat_map_uniform _ _ F); try assumption.
    + now rewrite nth_map_seq.
    + intros o. now rewrite length_map, length_seq.
  - intros o. rewrite (@flat_map_uniform_length _ _ F), length_seq; [reflexivity|].
    intros o'. now rewrite length_map, length_seq.
  - now apply index_in_range.
Qed.


End Transposed.

Section Cell.

Variables (N F R C : nat).
Variables (x_inputs y_preds : ndarray).

Hypothesis Hshape : shape x_inputs = [N; F; R; C].
Hypothesis Hsize : size y_preds = size x_inputs.

Lemma reshape_x : reshape x_inputs [N; F; R * C]
                  = Ok (mk_ndarray [N; F; R * C] (data x_inputs)).
Proof.
  unfold reshape, size. rewrite Hshape.
  rewrite (proj2 (Nat.eqb_eq _ _)) by (simpl; lia). reflexivity.
Qed.

Lemma reshape_y : reshape y_preds [N; F; R * C]
                  = Ok (mk_ndarray [N; F; R * C] (data y_preds)).
Proof.
  unfold reshape. rewrite Hsize. unfold size. rewrite Hshape.
  rewrite (proj2 (Nat.eqb_eq _ _)) by (simpl; lia). reflexivity.
Qed.

(** The reduced array before transposition: entry [(n, f)] is the lane mean. *)
Lemma mae_loss_eq :
  mae_loss x_inputs y_preds
  = Ok (mk_ndarray [F; N]
          (flat_map (fun f =>
             map (fun n => nan_to_zero (lane_mae F (R * C) x_inputs y_preds n f))
                 (seq 0 N))
           (seq 0 F))).
Proof.
  unfold mae_loss. rewrite Hshape, reshape_x. cbn [bind].
  rewrite transpose_021, reshape_y. cbn [bind].
  rewrite transpose_021. cbn [bind]. unfold reduce.
  unfold subtract. cbn [shape data]. rewrite shape_eqb_refl. cbn [bind].
  unfold abs. cbn [shape data].
  rewrite mean_3d_axis1. cbn [bind].
  rewrite transpose_10. cbn [bind].
  unfold setitem_isnan_zero. cbn [shape data]. f_equal. f_equal.
  rewrite map_flat_map_comm. apply flat_map_ext_in. intros f Hf.
  rewrite map_map. apply map_ext_in. intros n Hn.
  apply in_seq in Hf, Hn. f_equal.
  rewrite (@nth_flat_map_uniform _ _ F) by
    (try lia; intros; now rewrite length_map, length_seq).
  rewrite nth_map_seq by lia. unfold lane_mae.
  rewrite Nat.add_0_l. f_equal. apply map_ext_in. intros k Hk. apply in_seq in Hk.
  rewrite nth_map_fabs. f_equal.
  rewrite (@nth_map2 _ _ _ _ _ _ NaN NaN NaN).
  - unfold fsub, at3. now rewrite !transposed_nth by lia.
  - now rewrite !transposed_length.
  - rewrite transposed_length.
    replace (N * (R * C * F)) with (N * (R * C) * F) by lia.
    apply index_in_range; [|lia]. apply index_in_range; lia.
Qed.

(** The whole cell in closed form. *)
Lemma thresholds_eq :
  thresholds x_inputs y_preds
  = Ok (mk_ndarray [F]
          (map (expected_threshold N F (R * C) x_inputs y_preds) (seq 0 F))).
Proof.
  unfold thresholds. rewrite mae_loss_eq. cbn [bind].
  rewrite mean_2d_axis1. f_equal. f_equal.
  apply map_ext_in. intros f Hf. apply in_seq in Hf.
  unfold expected_threshold. f_equal.
  apply map_ext_in. intros n Hn. apply in_seq in Hn.
  rewrite (@nth_flat_map_uniform _ _ N) by
    (try lia; intros; now rewrite length_map, length_seq).
  now rewrite nth_map_seq by lia.
Qed.

End Cell.


(* ================================================================== *)
(** ** Layout before the reduction *)

Lemma getitem_3d (n f k : nat) (dat : list fval) (i j l : nat) :
  getitem (mk_ndarray [n; f; k] dat) [i; j; l] = nth ((i * f + j) * k + l) dat NaN.
Proof. unfold getitem. cbn [shape data strides offset size_of fold_right]. f_equal. lia. Qed.

Lemma getitem_4d (a : ndarray) (n f r c : nat) (i j l m : nat) :
  shape a = [n; f; r; c] ->
  getitem a [i; j; l; m] = nth (((i * f + j) * r + l) * c + m) (data a) NaN.
Proof.
  intros H. unfold getitem. rewrite H.
  cbn [strides offset size_of fold_right]. f_equal. lia.
Qed.

Lemma reshape_3d (a : ndarray) (N F R C : nat) :
  size a = N * F * R * C ->
  reshape a [N; F; R * C] = Ok (mk_ndarray [N; F; R * C] (data a)).
Proof.
  intros H. unfold reshape. rewrite H.
  rewrite (proj2 (Nat.eqb_eq _ _)) by (simpl; lia). reflexivity.
Qed.

Lemma size_4d (a : ndarray) (N F R C : nat) :
  shape a = [N; F; R; C] -> size a = N * F * R * C.
Proof. intros H. unfold size. rewrite H. simpl. lia. Qed.

(** C5. Before the reduction each stack of shape [(N, F, R, C)] is reshaped
    to [(N, F, R * C)] and then transposed to axis order [(N, R * C, F)]:
    both steps succeed; the reshaped stack has the data of the stack as
    loaded; the transposed stack has [N * (R * C) * F] elements and holds,
    at flat position [(n * (R * C) + (r * C + c)) * F + f], the element that
    the loaded stack holds at flat position [((n * F + f) * R + r) * C + c];
    and [mae_loss] is the reduction of the two transposed stacks. *)
Theorem C5_reshape_then_transpose (N F R C : nat) (x_inputs y_preds : ndarray) :
  shape x_inputs = [N; F; R; C] ->
  shape y_preds = [N; F; R; C] ->
  exists x1 x2 y1 y2,
    reshape x_inputs [N; F; R * C] = Ok x1 /\ transpose x1 [0; 2; 1] = Ok x2 /\
    reshape y_preds [N; F; R * C] = Ok y1 /\ transpose y1 [0; 2; 1] = Ok y2 /\
    shape x1 = [N; F; R * C] /\ shape y1 = [N; F; R * C] /\
    shape x2 = [N; R * C; F] /\ shape y2 = [N; R * C; F] /\
    data x1 = data x_inputs /\ data y1 = data y_preds /\
    length (data x2) = N * (R * C) * F /\ length (data y2) = N * (R * C) * F /\
    (forall n f r c, n < N -> f < F -> r < R -> c < C ->
       nth ((n * (R * C) + (r * C + c)) * F + f) (data x2) NaN
       = nth (((n * F + f) * R + r) * C + c) (data x_inputs) NaN /\
       nth ((n * (R * C) + (r * C + c)) * F + f) (data y2) NaN
       = nth (((n * F + f) * R + r) * C + c) (data y_preds) NaN) /\
    (forall n f r c, n < N -> f < F -> r < R -> c < C ->
       getitem x1 [n; f; r * C + c] = getitem x_inputs [n; f; r; c] /\
       getitem y1 [n; f; r * C + c] = getitem y_preds [n; f; r; c]) /\
    (forall n k f, n < N -> k < R * C -> f < F ->
       getitem x2 [n; k; f] = getitem x1 [n; f; k] /\
       getitem y2 [n; k; f] = getitem y1 [n; f; k]) /\
    mae_loss x_inputs y_preds = reduce x2 y2.
Proof.
  intros Hx Hy.
  pose proof (reshape_3d x_inputs N F R C (size_4d _ Hx)) as Rx.
  pose proof (reshape_3d y_preds N F R C (size_4d _ Hy)) as Ry.
  eexists _, _, _, _.
  split; [exact Rx|]. split; [apply transpose_021|].
  split; [exact Ry|]. split; [apply transpose_021|].
  cbn [shape data]. repeat (split; [reflexivity|]).
  split; [rewrite transposed_length; lia|].
  split; [rewrite transposed_length; lia|].
  split; [|split; [|split]].
  - intros n f r c Hn Hf Hr Hc.
    assert (Hk : r * C + c < R * C) by now apply index_in_range.
    rewrite !transposed_nth by assumption.
    split; f_equal; lia.
  - intros n f r c _ _ _ _.
    rewrite !getitem_3d, (getitem_4d _ _ _ _ _ Hx), (getitem_4d _ _ _ _ _ Hy).
    split; f_equal; lia.
  - intros n k f Hn Hk Hf. rewrite !getitem_3d.
    split; apply transposed_nth; assumption.
  - unfold mae_loss. rewrite Hx, Rx. cbn [bind].
    rewrite transpose_021, Ry. cbn [bind]. rewrite transpose_021. reflexivity.
Qed.

(* ================================================================== *)
(** ** Which prediction arrays are accepted *)

(** C9. The prediction array is reshaped with the dimensions of the input
    array, so only its element count matters: the cell succeeds for every
    prediction array with [N * F * R * C] elements, whatever its shape, and
    it fails, with the reshape error, exactly when the counts differ. *)
Theorem C9_only_the_element_count_matters (N F R C : nat) (x_inputs y_preds : ndarray) :
  shape x_inputs = [N; F; R; C] ->
  (size y_preds = N * F * R * C ->
     exists t, thresholds x_inputs y_preds = Ok t /\ shape t = [F]) /\
  (size y_preds <> N * F * R * C ->
     thresholds x_inputs y_preds = Raise ValueError_reshape) /\
  ((exists e, thresholds x_inputs y_preds = Raise e) <->
     size y_preds <> N * F * R * C).
Proof.
  intros Hx.
  assert (Hok : size y_preds = N * F * R * C ->
                exists t, thresholds x_inputs y_preds = Ok t /\ shape t = [F]).
  { intros Hy. eexists. split.
    - apply (@thresholds_eq N F R C); [assumption|].
      now rewrite Hy, (size_4d _ Hx).
    - reflexivity. }
  assert (Hko : size y_preds <> N * F * R * C ->
                thresholds x_inputs y_preds = Raise ValueError_reshape).
  { intros Hy. unfold thresholds, mae_loss.
    rewrite Hx, (reshape_3d _ _ _ _ _ (size_4d _ Hx)). cbn [bind].
    rewrite transpose_021. unfold reshape.
    rewrite (proj2 (Nat.eqb_neq _ _)) by (simpl; lia). reflexivity. }
  split; [exact Hok|]. split; [exact Hko|].
  split.
  - intros [e He] Hy. destruct (Hok Hy) as [t [Ht _]]. congruence.
  - intros Hy. eexists. now apply Hko.
Qed.


(* ================================================================== *)
(** ** Arithmetic of the idealised values *)

Section FloatFacts.

Local Open Scope Qc_scope.

Lemma of_nat_nonneg (n : nat) : 0 <= of_nat n.
Proof.
  unfold Qcle, of_nat. cbn [this Q2Qc]. rewrite !Qred_correct.
  unfold Qle. simpl. lia.
Qed.

Lemma of_nat_neq_0 (n : nat) : (0 < n)%nat -> of_nat n <> 0.
Proof.
  intros Hn H. unfold of_nat in H. apply Q2Qc_eq_iff in H.
  unfold Qeq in H. simpl in H. lia.
Qed.

Lemma of_nat_mul (n m : nat) : of_nat (n * m) = of_nat n * of_nat m.
Proof.
  unfold of_nat, Qcmult. apply Q2Qc_eq_iff. cbn [this Q2Qc].
  rewrite !Qred_correct, Nat2Z.inj_mul. unfold Qeq. simpl. lia.
Qed.

Lemma Qcinv_nonneg (q : Qc) : 0 <= q -> 0 <= / q.
Proof.
  unfold Qcle, Qcinv. cbn [this Q2Qc]. rewrite !Qred_correct.
  apply Qinv_le_0_compat.
Qed.

Lemma Qcdiv_nonneg (p q : Qc) : 0 <= p -> 0 <= q -> 0 <= p / q.
Proof.
  intros Hp Hq. unfold Qcdiv.
  rewrite <- (Qcmult_0_l (/ q)).
  apply Qcmult_le_compat_r; [assumption|now apply Qcinv_nonneg].
Qed.

Lemma Qcplus_nonneg (p q : Qc) : 0 <= p -> 0 <= q -> 0 <= p + q.
Proof.
  intros Hp Hq. rewrite <- (Qcplus_0_l 0).
  now apply Qcplus_le_compat.
Qed.

Lemma Qc_ltb_nonneg (q : Qc) : 0 <= q -> Qc_ltb q 0 = false.
Proof.
  intros H. unfold Qc_ltb. destruct (q ?= 0) eqn:E; try reflexivity.
  exfalso. apply Qcle_not_lt in H. apply H. exact E.
Qed.

Lemma Qc_eqb_refl (q : Qc) : Qc_eqb q q = true.
Proof. unfold Qc_eqb. now destruct (Qc_eq_dec q q). Qed.

End FloatFacts.

Lemma fabs_nonneg_or_nan (x : fval) : nonneg_or_nan (fabs x).
Proof. destruct x; simpl; auto. apply Qcabs_nonneg. Qed.

Lemma fadd_nonneg_or_nan (x y : fval) :
  nonneg_or_nan x -> nonneg_or_nan y -> nonneg_or_nan (fadd x y).
Proof.
  destruct x as [|s|p], y as [|s'|q]; simpl; intros Hx Hy; subst; simpl; auto.
  now apply Qcplus_nonneg.
Qed.

Lemma fadd_nonneg (x y : fval) : nonneg x -> nonneg y -> nonneg (fadd x y).
Proof.
  destruct x as [|s|p], y as [|s'|q]; simpl; intros Hx Hy; subst; simpl; auto.
  now apply Qcplus_nonneg.
Qed.

Lemma fold_fadd_invariant (P : fval -> Prop) :
  (forall x y, P x -> P y -> P (fadd x y)) ->
  forall l acc, P acc -> Forall P l -> P (fold_left fadd l acc).
Proof.
  intros HP l. induction l as [|v l IH]; intros acc Hacc Hl; simpl; [assumption|].
  inversion Hl; subst. apply IH; [now apply HP|assumption].
Qed.

Lemma fsum_nonneg_or_nan (l : list fval) :
  Forall nonneg_or_nan l -> nonneg_or_nan (fsum l).
Proof.
  unfold fsum. apply fold_fadd_invariant; [exact fadd_nonneg_or_nan|].
  simpl. apply Qcle_refl.
Qed.

Lemma fsum_nonneg (l : list fval) : Forall nonneg l -> nonneg (fsum l).
Proof.
  unfold fsum. apply fold_fadd_invariant; [exact fadd_nonneg|].
  simpl. apply Qcle_refl.
Qed.

Lemma fdivn_nonneg_or_nan (x : fval) (n : nat) :
  nonneg_or_nan x -> nonneg_or_nan (fdivn x n).
Proof.
  destruct x as [|s|q]; simpl; auto. intros Hq. destruct n as [|n].
  - destruct (Qc_eqb q 0); simpl; [trivial|now apply Qc_ltb_nonneg].
  - simpl. apply Qcdiv_nonneg; [assumption|apply of_nat_nonneg].
Qed.

Lemma fdivn_nonneg (x : fval) (n : nat) :
  0 < n -> nonneg x -> nonneg (fdivn x n).
Proof.
  intros Hn. destruct x as [|s|q]; simpl; auto. intros Hq.
  destruct n as [|n]; [lia|]. simpl.
  apply Qcdiv_nonneg; [assumption|apply of_nat_nonneg].
Qed.

Lemma nan_to_zero_nonneg (x : fval) : nonneg_or_nan x -> nonneg (nan_to_zero x).
Proof. destruct x; simpl; auto. intros _. apply Qcle_refl. Qed.

Lemma nonneg_not_nan (x : fval) : nonneg x -> isnan x = false.
Proof. destruct x; simpl; auto. contradiction. Qed.

Lemma nan_to_zero_not_nan (x : fval) : isnan (nan_to_zero x) = false.
Proof. now destruct x. Qed.

Lemma fsub_self (x : fval) : zero_or_nan (fsub x x).
Proof.
  destruct x as [|s|q]; unfold fsub; simpl.
  - now left.
  - left. now destruct s.
  - right. unfold zero. cbn [fadd fneg]. f_equal; apply Qcplus_opp_r.
Qed.

Lemma fabs_zero_or_nan (x : fval) : zero_or_nan x -> zero_or_nan (fabs x).
Proof.
  intros [->| ->]; [now left|right]. unfold zero. cbn [fabs]. f_equal;
  apply Qcabs_pos, Qcle_refl.
Qed.

Lemma fadd_zero_or_nan (x y : fval) :
  zero_or_nan x -> zero_or_nan y -> zero_or_nan (fadd x y).
Proof.
  intros [->| ->] [->| ->]; try (now left).
  right. unfold zero. cbn [fadd]. f_equal; apply Qcplus_0_l.
Qed.

Lemma fdivn_zero_or_nan (x : fval) (n : nat) :
  zero_or_nan x -> zero_or_nan (fdivn x n).
Proof.
  intros [->| ->]; [now left|]. destruct n as [|n].
  - left. unfold zero. cbn [fdivn]. now rewrite Qc_eqb_refl.
  - right. unfold zero. cbn [fdivn]. f_equal; apply Qcmult_0_l.
Qed.

Lemma nan_to_zero_of_zero_or_nan (x : fval) : zero_or_nan x -> nan_to_zero x = zero.
Proof. now intros [->| ->]. Qed.

Lemma fmean_zero_or_nan (l : list fval) :
  Forall zero_or_nan l -> zero_or_nan (fmean l).
Proof.
  intros H. apply fdivn_zero_or_nan. unfold fsum.
  apply fold_fadd_invariant; [exact fadd_zero_or_nan|now right|assumption].
Qed.

Lemma fmean_zeros (l : list fval) :
  l <> [] -> Forall (fun v => v = zero) l -> fmean l = zero.
Proof.
  intros Hne H. unfold fmean.
  assert (Hs : fsum l = zero).
  { unfold fsum.
    apply (@fold_fadd_invariant (fun v => v = zero)); try assumption; [|reflexivity].
    intros x y -> ->. unfold zero. cbn [fadd]. f_equal; apply Qcplus_0_l. }
  rewrite Hs. destruct l as [|v l]; [congruence|].
  unfold zero. cbn [fdivn length]. f_equal; apply Qcmult_0_l.
Qed.

(* ================================================================== *)
(** ** Sign and NaN-freedom of the thresholds *)

Section Bounds.

Variables (N F R C : nat).
Variables (x_inputs y_preds : ndarray).

Lemma lane_mae_nonneg_or_nan (n f : nat) :
  nonneg_or_nan (lane_mae F (R * C) x_inputs y_preds n f).
Proof.
  unfold lane_mae, fmean. apply fdivn_nonneg_or_nan, fsum_nonneg_or_nan.
  apply Forall_map, Forall_forall. intros k _. apply fabs_nonneg_or_nan.
Qed.

Lemma expected_threshold_nonneg (f : nat) :
  0 < N -> nonneg (expected_threshold N F (R * C) x_inputs y_preds f).
Proof.
  intros HN. unfold expected_threshold, fmean.
  apply fdivn_nonneg; [now rewrite length_map, length_seq|].
  apply fsum_nonneg, Forall_map, Forall_forall. intros n _.
  apply nan_to_zero_nonneg, lane_mae_nonneg_or_nan.
Qed.

End Bounds.

Lemma nth_tabulate2 {A} (g : nat -> nat -> A) (n m i j : nat) (d : A) :
  i < n -> j < m ->
  nth (i * m + j) (flat_map (fun a => map (g a) (seq 0 m)) (seq 0 n)) d = g i j.
Proof.
  intros Hi Hj.
  rewrite (@nth_flat_map_uniform _ _ m) by
    (try assumption; intros; now rewrite length_map, length_seq).
  now rewrite nth_map_seq.
Qed.

Lemma getitem_2d (n m : nat) (dat : list fval) (i j : nat) :
  getitem (mk_ndarray [n; m] dat) [i; j] = nth (i * m + j) dat NaN.
Proof. unfold getitem. cbn [shape data strides offset size_of fold_right]. f_equal. lia. Qed.

Lemma getitem_1d (n : nat) (dat : list fval) (i : nat) :
  getitem (mk_ndarray [n] dat) [i] = nth i dat NaN.
Proof. unfold getitem. cbn [shape data strides offset size_of fold_right]. f_equal. lia. Qed.

(** C8, as amended.  For at least one sample, every entry of the threshold
    vector is greater than or equal to zero: a non-negative rational or
    [+inf], never NaN. *)
Theorem C8_thresholds_nonneg (N F R C : nat) (x_inputs y_preds : ndarray) :
  shape x_inputs = [N; F; R; C] ->
  size y_preds = N * F * R * C ->
  0 < N ->
  exists t, thresholds x_inputs y_preds = Ok t /\ Forall nonneg (data t).
Proof.
  intros Hx Hy HN. eexists. split.
  - apply (@thresholds_eq N F R C); [assumption|].
    now rewrite Hy, (size_4d _ Hx).
  - cbn [data]. apply Forall_map, Forall_forall. intros f _.
    now apply expected_threshold_nonneg.
Qed.

(** C3, as amended.  For inputs of compatible total size and at least one
    sample no error is raised; entry [(f, n)] of the intermediate array is
    the mean absolute difference of sample [n] at feature [f] with NaN
    replaced by zero, so the intermediate array holds no NaN, and no entry
    of the returned thresholds is NaN, wherever NaN occurs in the inputs. *)
Theorem C3_nan_is_zeroed (N F R C : nat) (x_inputs y_preds : ndarray) :
  shape x_inputs = [N; F; R; C] ->
  size y_preds = N * F * R * C ->
  0 < N ->
  exists m t,
    mae_loss x_inputs y_preds = Ok m /\
    shape m = [F; N] /\
    (forall f n, f < F -> n < N ->
       getitem m [f; n] = nan_to_zero (lane_mae F (R * C) x_inputs y_preds n f)) /\
    Forall (fun v => isnan v = false) (data m) /\
    thresholds x_inputs y_preds = Ok t /\
    Forall (fun v => isnan v = false) (data t).
Proof.
  intros Hx Hy HN.
  assert (Hsz : size y_preds = size x_inputs) by now rewrite Hy, (size_4d _ Hx).
  eexists _, _.
  split; [apply (@mae_loss_eq N F R C); assumption|].
  split; [reflexivity|]. split; [|split; [|split]].
  - intros f n Hf Hn. rewrite getitem_2d. now apply nth_tabulate2.
  - cbn [data]. apply Forall_forall. intros v Hv.
    apply in_flat_map in Hv. destruct Hv as [f [_ Hv]].
    apply in_map_iff in Hv. destruct Hv as [n [<- _]].
    apply nan_to_zero_not_nan.
  - apply (@thresholds_eq N F R C); assumption.
  - cbn [data]. apply Forall_map, Forall_forall. intros f _.
    now apply nonneg_not_nan, expected_threshold_nonneg.
Qed.

Lemma lane_mae_self (F K : nat) (x : ndarray) (n f : nat) :
  zero_or_nan (lane_mae F K x x n f).
Proof.
  unfold lane_mae. apply fmean_zero_or_nan, Forall_map, Forall_forall.
  intros k _. apply fabs_zero_or_nan, fsub_self.
Qed.

Lemma expected_threshold_self (N F K : nat) (x : ndarray) (f : nat) :
  0 < N -> expected_threshold N F K x x f = zero.
Proof.
  intros HN. unfold expected_threshold. apply fmean_zeros.
  - destruct N; [lia|]. discriminate.
  - apply Forall_map, Forall_forall. intros n _.
    apply nan_to_zero_of_zero_or_nan, lane_mae_self.
Qed.

(** C4, as amended.  For every shape [(N, F, R, C)] with at least one sample,
    if the prediction stack equals the input stack (all zeros or not, NaN
    and infinities included), every entry of the threshold vector is exactly
    zero. *)
Theorem C4_identical_stacks_give_zero (N F R C : nat) (x_inputs : ndarray) :
  shape x_inputs = [N; F; R; C] ->
  0 < N ->
  exists t,
    thresholds x_inputs x_inputs = Ok t /\
    shape t = [F] /\ length (data t) = F /\
    Forall (fun v => v = zero) (data t).
Proof.
  intros Hx HN. eexists. split; [|split; [|split]].
  - apply (@thresholds_eq N F R C); [assumption|reflexivity].
  - reflexivity.
  - cbn [data]. now rewrite length_map, length_seq.
  - cbn [data]. apply Forall_map, Forall_forall. intros f _.
    now apply expected_threshold_self.
Qed.


(* ================================================================== *)
(** ** The thresholds in closed form *)

Lemma seq_from (s n : nat) : seq s n = map (fun c => s + c) (seq 0 n).
Proof.
  revert s. induction n as [|n IH]; intros s; [reflexivity|].
  simpl. rewrite Nat.add_0_r. f_equal.
  rewrite <- (seq_shift n 0), map_map, (IH (S s)).
  apply map_ext. intros c. lia.
Qed.

Lemma map_seq_mul {A} (g : nat -> A) (R C : nat) :
  map g (seq 0 (R * C))
  = flat_map (fun r => map (fun c => g (r * C + c)) (seq 0 C)) (seq 0 R).
Proof.
  induction R as [|R IH]; [reflexivity|].
  rewrite seq_S, flat_map_app. cbn [flat_map]. rewrite app_nil_r.
  replace (S R * C) with (R * C + C) by lia.
  rewrite seq_app, map_app, IH. f_equal.
  rewrite Nat.add_0_l, (seq_from (R * C)), map_map. reflexivity.
Qed.

Lemma location_mean_eq (N F R C : nat) (x y : ndarray) (n f : nat) :
  shape x = [N; F; R; C] -> shape y = [N; F; R; C] ->
  lane_mae F (R * C) x y n f = location_mean R C x y n f.
Proof.
  intros Hx Hy. unfold lane_mae, location_mean. f_equal.
  rewrite map_seq_mul. apply flat_map_ext. intros r. apply map_ext. intros c.
  unfold abs_diff, at3.
  rewrite (getitem_4d _ _ _ _ _ Hx), (getitem_4d _ _ _ _ _ Hy).
  replace ((n * F + f) * (R * C) + (r * C + c))
    with (((n * F + f) * R + r) * C + c) by lia.
  reflexivity.
Qed.





(* ================================================================== *)
(** ** The pipeline creation cell *)

Import Pipeline.

(** C6.  When [pipeline.create] raises a client error with code
    ['ValidationError'] whose message contains ['Pipeline names must be
    unique within'], the cell prints the message, calls [describe] and goes
    on with the described pipeline (its ARN is tagged, printed and kept);
    every other exception of the creation call leaves the cell unhandled,
    right after the call. *)
Theorem C6_duplicate_name_falls_back_to_describe (svc : service) (e : exn) :
  create svc = Raise e ->
  (forall code message,
     e = ClientError code message ->
     code = "ValidationError"%string ->
     contains "Pipeline names must be unique within" message = true ->
     create_pipeline_cell svc
     = (([Call "pipeline.create" "role"; Printed message], Done tt) ;;;
        response <~ call "pipeline.describe" EmptyString (describe svc) ;;
        tag_and_print svc response) /\
     (forall r, describe svc = Ok r -> add_tags svc (PipelineArn r) = Ok tt ->
        result_of (create_pipeline_cell svc) = Done (PipelineArn r))) /\
  ((forall code message,
      e = ClientError code message ->
      ~ (code = "ValidationError"%string /\
         contains "Pipeline names must be unique within" message = true)) ->
   create_pipeline_cell svc = ([Call "pipeline.create" "role"], Raised e)).
Proof.
  intros Hc. split.
  - intros code message -> -> Hm.
    assert (Hcell : create_pipeline_cell svc
      = (([Call "pipeline.create" "role"; Printed message], Done tt) ;;;
         response <~ call "pipeline.describe" EmptyString (describe svc) ;;
         tag_and_print svc response)).
    { unfold create_pipeline_cell. rewrite Hc.
      cbn [call try_except_ClientError]. rewrite String.eqb_refl, Hm.
      cbn [andb]. destruct (describe svc) as [r|e']; cbn; [|reflexivity].
      destruct (tag_and_print svc r). reflexivity. }
    split; [exact Hcell|].
    intros r Hd Ht. rewrite Hcell, Hd. cbn [sbind call app].
    unfold tag_and_print. rewrite Ht. reflexivity.
  - intros Hother. unfold create_pipeline_cell. rewrite Hc.
    destruct e as [| | | | | | |code message|name]; try reflexivity.
    cbn [call try_except_ClientError].
    destruct (String.eqb code "ValidationError") eqn:Ecode;
      [destruct (contains "Pipeline names must be unique within" message) eqn:Emsg|];
      try reflexivity.
    exfalso. apply (Hother code message eq_refl).
    split; [now apply String.eqb_eq|assumption].
Qed.

(* ================================================================== *)
(** ** The wait loops *)

Import Polling.

Section WaitLoop.

Variables (api job printed : string) (running : string -> bool) (interval : nat).
Variable describe : nat -> result string.

Local Notation "'loop_from'" :=
  (wait_loop api job running interval printed describe).
Local Notation "'again'" := (Polling.again api job interval).
Local Notation "'leave'" := (Polling.leave api job printed).

Lemma wait_loop_again (i fuel : nat) (s : string) :
  describe i = Ok s -> running s = true ->
  loop_from i (S fuel)
  = (again ++ trace (loop_from (S i) fuel), result_of (loop_from (S i) fuel)).
Proof.
  intros Hd Hr. cbn [wait_loop]. rewrite Hd. cbn [call sbind].
  rewrite Hr. cbn [print sleep sbind].
  destruct (wait_loop api job running interval printed describe (S i) fuel).
  reflexivity.
Qed.

Lemma wait_loop_leave (i fuel : nat) (s : string) :
  describe i = Ok s -> running s = false ->
  loop_from i (S fuel) = (leave s, Done s).
Proof.
  intros Hd Hr. cbn [wait_loop]. rewrite Hd. cbn [call sbind].
  rewrite Hr. reflexivity.
Qed.

(** The loop leaves at poll [k] when that is the first status outside the
    running set. *)
Lemma wait_loop_exits (k : nat) (s : string) :
  forall i fuel,
  (forall j, j < k -> exists sj, describe (i + j) = Ok sj /\ running sj = true) ->
  describe (i + k) = Ok s -> running s = false ->
  k < fuel ->
  loop_from i fuel = (concat (repeat again k) ++ leave s, Done s).
Proof.
  induction k as [|k IH]; intros i fuel Hrun Hk Hs Hfuel;
    (destruct fuel as [|fuel]; [lia|]).
  - rewrite Nat.add_0_r in Hk. now apply wait_loop_leave.
  - destruct (Hrun 0) as [s0 [Hd0 Hr0]]; [lia|]. rewrite Nat.add_0_r in Hd0.
    rewrite (wait_loop_again _ Hd0 Hr0).
    rewrite (IH (S i) fuel); try assumption; try lia.
    + cbn [trace result_of fst snd repeat concat]. now rewrite <- app_assoc.
    + intros j Hj. destruct (Hrun (S j)) as [sj Hsj]; [lia|].
      exists sj. now replace (S i + j) with (i + S j) by lia.
    + now replace (S i + k) with (i + S k) by lia.
Qed.

(** While every status is in the running set the loop is still polling,
    whatever the number of iterations observed. *)
Lemma wait_loop_keeps_polling :
  forall fuel i,
  (forall j, j < fuel -> exists sj, describe (i + j) = Ok sj /\ running sj = true) ->
  loop_from i fuel = (concat (repeat again fuel), Pending).
Proof.
  induction fuel as [|fuel IH]; intros i Hrun; [reflexivity|].
  destruct (Hrun 0) as [s0 [Hd0 Hr0]]; [lia|]. rewrite Nat.add_0_r in Hd0.
  rewrite (wait_loop_again _ Hd0 Hr0), (IH (S i)); [reflexivity|].
  intros j Hj. destruct (Hrun (S j)) as [sj Hsj]; [lia|].
  exists sj. now replace (S i + j) with (i + S j) by lia.
Qed.

(** A loop that has left did so on the first status outside the running
    set. *)
Lemma wait_loop_left :
  forall fuel i s,
  result_of (loop_from i fuel) = Done s ->
  exists k, k < fuel /\ describe (i + k) = Ok s /\ running s = false /\
            forall j, j < k -> exists sj, describe (i + j) = Ok sj /\ running sj = true.
Proof.
  induction fuel as [|fuel IH]; intros i s Hres; [discriminate|].
  destruct (describe i) as [s0|e] eqn:Hd.
  - destruct (running s0) eqn:Hr.
    + rewrite (wait_loop_again _ Hd Hr) in Hres. cbn [result_of snd] in Hres.
      destruct (IH (S i) s Hres) as [k [Hk [Hdk [Hrk Hbefore]]]].
      exists (S k). split; [lia|]. split; [|split].
      * now replace (i + S k) with (S i + k) by lia.
      * assumption.
      * intros [|j] Hj.
        -- exists s0. now rewrite Nat.add_0_r.
        -- destruct (Hbefore j) as [sj Hsj]; [lia|].
           exists sj. now replace (i + S j) with (S i + j) by lia.
    + rewrite (wait_loop_leave _ Hd Hr) in Hres. cbn in Hres.
      injection Hres as <-. exists 0. rewrite Nat.add_0_r.
      split; [lia|]. split; [assumption|]. split; [assumption|]. intros j Hj. lia.
  - cbn [wait_loop] in Hres. rewrite Hd in Hres.
    discriminate.
Qed.

End WaitLoop.

Lemma run_eq (w : loop) (name other : string) :
  run w name other
  = wait_loop (describe_api w) name (running_test w) (sleep_interval w)
              (printed_name w name other).
Proof. now destruct w. Qed.

Lemma running_test_iff (w : loop) (s : string) :
  running_test w s = true <-> In s (running_set w).
Proof.
  destruct w; cbn [running_test running_set in_list existsb In];
    rewrite ?orb_true_iff, ?String.eqb_eq, ?orb_false_r; intuition congruence.
Qed.

Lemma running_test_false_iff (w : loop) (s : string) :
  running_test w s = false <-> ~ In s (running_set w).
Proof.
  rewrite <- running_test_iff. now destruct (running_test w s).
Qed.

(** C7.  Each of the three wait loops describes the job, and between two
    polls prints and sleeps its fixed interval (30 seconds for the pipeline
    execution, 5 for the other two).  It leaves exactly at the first poll
    whose status is outside its running set (['Executing'], resp.
    ['STARTING'] / ['INPROGRESS']): given enough iterations it returns that
    status, a loop that returned did so at such a poll, and while every
    observed status stays in the running set it is still polling after any
    number of iterations. *)
Theorem C7_wait_loops (w : loop) (name other : string)
    (describe : nat -> result string) :
  (forall k s,
     (forall j, j < k ->
        exists sj, describe j = Ok sj /\ In sj (running_set w)) ->
     describe k = Ok s -> ~ In s (running_set w) ->
     forall fuel, k < fuel ->
       run w name other describe 0 fuel
       = (concat (repeat (running_iteration w name) k)
            ++ last_iteration w name other s, Done s)) /\
  (forall fuel s,
     result_of (run w name other describe 0 fuel) = Done s ->
     exists k, k < fuel /\ describe k = Ok s /\ ~ In s (running_set w) /\
       forall j, j < k ->
         exists sj, describe j = Ok sj /\ In sj (running_set w)) /\
  ((forall j, exists sj, describe j = Ok sj /\ In sj (running_set w)) ->
   forall fuel,
     run w name other describe 0 fuel
     = (concat (repeat (running_iteration w name) fuel), Pending)).
Proof.
  rewrite run_eq. split; [|split].
  - intros k s Hrun Hk Hs fuel Hfuel.
    apply wait_loop_exits; try assumption.
    + intros j Hj. destruct (Hrun j Hj) as [sj [Hd Hin]].
      exists sj. split; [assumption|now apply running_test_iff].
    + now apply running_test_false_iff.
  - intros fuel s Hres.
    destruct (wait_loop_left _ _ _ _ _ _ _ _ Hres) as [k [Hk [Hd [Hr Hbefore]]]].
    exists k. split; [assumption|]. split; [assumption|].
    split; [now apply running_test_false_iff|].
    intros j Hj. destruct (Hbefore j Hj) as [sj [Hdj Hrj]].
    exists sj. split; [assumption|now apply running_test_iff].
  - intros Hrun fuel. apply wait_loop_keeps_polling.
    intros j _. destruct (Hrun j) as [sj [Hd Hin]].
    exists sj. split; [assumption|now apply running_test_iff].
Qed.

(* ================================================================== *)
(** ** The assertion on the training jobs *)

Import PostRun.

Lemma trace_sbind {A B} (m : script A) (k : A -> script B) :
  trace (sbind m k)
  = trace m ++ match result_of m with
               | Done a => trace (k a)
               | _ => []
               end.
Proof.
  destruct m as [t [a|e|]]; cbn [sbind trace result_of fst snd].
  - now destruct (k a).
  - now rewrite app_nil_r.
  - now rewrite app_nil_r.
Qed.

Lemma trace_call {A} (api arg : string) (answer : result A) :
  trace (call api arg answer) = [Call api arg].
Proof. now destruct answer. Qed.

(** C10.  The setup cell lists the completed training jobs whose name
    contains the execution id (the last ['/']-separated part of the
    execution ARN) and asserts that there is exactly one.  With any other
    count the run stops there with an assertion error, the listing being the
    last call issued: no later download, compilation, packaging or
    deployment step runs.  With exactly one job the run goes on and attaches
    the estimator of that job. *)
Theorem C10_exactly_one_training_job (svc : services)
    (pipeline_execution_arn role : string) (fuel : nat)
    (training_jobs : list string) :
  get_execution_role svc = Ok role ->
  list_training_jobs svc (execution_id pipeline_execution_arn) "Completed"
  = Ok training_jobs ->
  (length training_jobs <> 1 ->
     from_setup_cell svc pipeline_execution_arn fuel
     = ([Call "get_execution_role" "sagemaker";
         Call "list_training_jobs" (execution_id pipeline_execution_arn)],
        Raised AssertionError)) /\
  (length training_jobs = 1 ->
     exists training_job_name rest,
       training_jobs = [training_job_name] /\
       trace (from_setup_cell svc pipeline_execution_arn fuel)
       = Call "get_execution_role" "sagemaker"
         :: Call "list_training_jobs" (execution_id pipeline_execution_arn)
         :: Call "Estimator.attach" training_job_name :: rest).
Proof.
  intros Hrole Hlist. split.
  - intros Hlen. unfold from_setup_cell, setup_cell.
    rewrite Hrole, Hlist. cbn [call sbind].
    rewrite (proj2 (Nat.eqb_neq _ _) Hlen). reflexivity.
  - intros Hlen.
    destruct training_jobs as [|job [|job' more]]; try discriminate.
    exists job. eexists. split; [reflexivity|].
    unfold from_setup_cell. rewrite trace_sbind.
    unfold setup_cell at 1. rewrite Hrole, Hlist.
    rewrite trace_sbind. cbn [call trace result_of fst snd app].
    f_equal. rewrite trace_sbind. cbn [call trace result_of fst snd app].
    f_equal. rewrite trace_sbind.
    cbn [length Nat.eqb assert ret trace fst app result_of snd].
    rewrite trace_sbind.
    cbn [list_getitem nth_error of_result trace fst app result_of snd].
    rewrite trace_sbind, trace_call. reflexivity.
Qed.

(* ================================================================== *)
(** ** The statements at concrete inputs *)




(** The claim C3 as worded fails for a stack of zero samples: the single
    threshold is the mean of an empty lane, NaN. *)
Lemma C3_counterexample :
  wf x_empty /\ size x_empty = size x_empty /\
  thresholds x_empty x_empty = Ok (mk_ndarray [1] [NaN]) /\
  ~ (exists t, thresholds x_empty x_empty = Ok t /\
               Forall (fun v => isnan v = false) (data t)).
Proof.
  split; [reflexivity|]. split; [reflexivity|]. split; [reflexivity|].
  intros [t [Ht Hall]]. vm_compute in Ht. injection Ht as <-.
  inversion Hall as [|v l Hv _]. discriminate Hv.
Qed.

Lemma C3_witness :
  exists m t,
    mae_loss x_nan y_small = Ok m /\
    shape m = [2; 1] /\
    getitem m [0; 0] = nan_to_zero (lane_mae 2 (1 * 2) x_nan y_small 0 0) /\
    Forall (fun v => isnan v = false) (data m) /\
    thresholds x_nan y_small = Ok t /\
    Forall (fun v => isnan v = false) (data t).
Proof.
  destruct (@C3_nan_is_zeroed 1 2 1 2 x_nan y_small eq_refl eq_refl)
    as [m [t [H1 [H2 [H3 [H4 [H5 H6]]]]]]]; [lia|].
  exists m, t. repeat (split; [assumption|]).
  split; [apply H3; lia|]. repeat (split; [assumption|]). assumption.
Defined.

(** The claim C4 as worded fails for identical stacks of zero samples. *)
Lemma C4_counterexample :
  shape x_empty = [0; 1; 1; 1] /\
  thresholds x_empty x_empty = Ok (mk_ndarray [1] [NaN]) /\
  ~ (exists t, thresholds x_empty x_empty = Ok t /\
               Forall (fun v => v = zero) (data t)).
Proof.
  split; [reflexivity|]. split; [reflexivity|].
  intros [t [Ht Hall]]. vm_compute in Ht. injection Ht as <-.
  inversion Hall as [|v l Hv _]. discriminate Hv.
Qed.

Lemma C4_witness :
  exists t,
    thresholds x_nan x_nan = Ok t /\
    shape t = [2] /\ length (data t) = 2 /\
    Forall (fun v => v = zero) (data t).
Proof.
  apply (@C4_identical_stacks_give_zero 1 2 1 2 x_nan); [reflexivity|lia].
Defined.

Lemma C5_witness :
  exists x1 x2 y1 y2,
    reshape x_pair [2; 2; 1 * 2] = Ok x1 /\ transpose x1 [0; 2; 1] = Ok x2 /\
    reshape y_pair [2; 2; 1 * 2] = Ok y1 /\ transpose y1 [0; 2; 1] = Ok y2 /\
    shape x2 = [2; 1 * 2; 2] /\ shape y2 = [2; 1 * 2; 2] /\
    data x1 = data x_pair /\
    length (data x2) = 2 * (1 * 2) * 2 /\
    nth ((1 * (1 * 2) + (0 * 2 + 1)) * 2 + 0) (data x2) NaN
    = nth (((1 * 2 + 0) * 1 + 0) * 2 + 1) (data x_pair) NaN /\
    data x2 = [qn 1; qn 3; qn 2; qn 4; qn 5; qn 7; qn 6; qn 8] /\
    data y2 = [qn 0; qn 3; qn 4; qn 5; qn 5; NaN; qn 6; qn 9] /\
    mae_loss x_pair y_pair = reduce x2 y2.
Proof.
  destruct (@C5_reshape_then_transpose 2 2 1 2 x_pair y_pair eq_refl eq_refl)
    as [x1 [x2 [y1 [y2 [H1 [H2 [H3 [H4 [H5 [H6 [H7 [H8 [H9 [H10 [H11 [H12
         [H13 [H14 [H15 H16]]]]]]]]]]]]]]]]]]].
  exists x1, x2, y1, y2. repeat (split; [assumption|]).
  split; [apply H13; lia|].
  split; [|split; [|assumption]].
  - vm_compute in H1. injection H1 as <-.
    vm_compute in H2. injection H2 as <-. reflexivity.
  - vm_compute in H3. injection H3 as <-.
    vm_compute in H4. injection H4 as <-. reflexivity.
Defined.

Lemma C6_witness :
  result_of (create_pipeline_cell taken)
  = Done "arn:aws:sagemaker:pipeline/windturbine"%string /\
  create_pipeline_cell throttled
  = ([Call "pipeline.create" "role"],
     Raised (ClientError "ThrottlingException" "Rate exceeded")).
Proof.
  split.
  - destruct (@C6_duplicate_name_falls_back_to_describe taken _ eq_refl) as [H _].
    destruct (H _ _ eq_refl eq_refl eq_refl) as [_ H'].
    apply (H' _ eq_refl eq_refl).
  - destruct (@C6_duplicate_name_falls_back_to_describe throttled _ eq_refl) as [_ H].
    apply H. intros code message Heq [Hcode _].
    injection Heq as <- _. discriminate Hcode.
Defined.

Lemma C7_witness :
  run PipelineExecution "arn" "other" (two_polls_then "Executing" "Succeeded") 0 5
  = (concat (repeat (running_iteration PipelineExecution "arn") 2)
       ++ last_iteration PipelineExecution "arn" "other" "Succeeded",
     Done "Succeeded"%string) /\
  run CompilationJob "job" "other" (fun _ => Ok "INPROGRESS"%string) 0 7
  = (concat (repeat (running_iteration CompilationJob "job") 7), Pending).
Proof.
  split.
  - destruct (C7_wait_loops PipelineExecution "arn" "other"
                (two_polls_then "Executing" "Succeeded")) as [H _].
    apply H; [|reflexivity| |lia].
    + intros j Hj. exists "Executing"%string. split; [|now left].
      destruct j as [|[|j]]; [reflexivity|reflexivity|lia].
    + intros [Hin|[]]. discriminate Hin.
  - destruct (C7_wait_loops CompilationJob "job" "other"
                (fun _ => Ok "INPROGRESS"%string)) as [_ [_ H]].
    apply H. intros j. exists "INPROGRESS"%string.
    split; [reflexivity|right; now left].
Defined.

(** The claim C8 as worded fails for a stack of zero samples: NaN is not
    greater than or equal to zero. *)
Lemma C8_counterexample :
  wf x_empty /\ size x_empty = size x_empty /\
  thresholds x_empty x_empty = Ok (mk_ndarray [1] [NaN]) /\
  ~ (exists t, thresholds x_empty x_empty = Ok t /\ Forall nonneg (data t)).
Proof.
  split; [reflexivity|]. split; [reflexivity|]. split; [reflexivity|].
  intros [t [Ht Hall]]. vm_compute in Ht. injection Ht as <-.
  inversion Hall as [|v l Hv _]. exact Hv.
Qed.

Lemma C8_witness :
  exists t, thresholds x_nan y_flat = Ok t /\ Forall nonneg (data t).
Proof.
  apply (@C8_thresholds_nonneg 1 2 1 2 x_nan y_flat); [reflexivity|reflexivity|lia].
Defined.

Lemma C9_witness :
  (exists t, thresholds x_small y_flat = Ok t /\ shape t = [2]) /\
  thresholds x_small x_two_features = Raise ValueError_reshape.
Proof.
  split.
  - destruct (@C9_only_the_element_count_matters 1 2 1 2 x_small y_flat eq_refl)
      as [H _].
    apply H. reflexivity.
  - destruct (@C9_only_the_element_count_matters 1 2 1 2 x_small x_two_features
                eq_refl) as [_ [H _]].
    apply H. cbn. lia.
Defined.

Lemma C10_witness :
  from_setup_cell no_training_job "arn:aws:sagemaker:pipeline/wt/execution/abc123" 9
  = ([Call "get_execution_role" "sagemaker"; Call "list_training_jobs" "abc123"],
     Raised AssertionError).
Proof.
  destruct (@C10_exactly_one_training_job no_training_job
              "arn:aws:sagemaker:pipeline/wt/execution/abc123" _ 9 []
              eq_refl eq_refl)
    as [H _].
  apply H. cbn. lia.
Defined.

(* ================================================================== *)
(** ** Further behaviour of the threshold cell *)

(** X1.  The unpacking of [x_inputs.shape] into four names fails for every
    array that is not four-dimensional, before anything is reshaped. *)
Theorem thresholds_needs_four_dimensions (x_inputs y_preds : ndarray) :
  ndim x_inputs <> 4 ->
  mae_loss x_inputs y_preds = Raise ValueError_unpack /\
  thresholds x_inputs y_preds = Raise ValueError_unpack.
Proof.
  intros H. unfold thresholds, mae_loss, ndim in *.
  destruct (shape x_inputs) as [|a [|b [|c [|d [|e l]]]]]; cbn in H;
    try (split; reflexivity).
  congruence.
Qed.

Lemma thresholds_needs_four_dimensions_witness :
  mae_loss x_3d y_flat = Raise ValueError_unpack /\
  thresholds x_3d y_flat = Raise ValueError_unpack.
Proof.
  apply thresholds_needs_four_dimensions. cbn. lia.
Defined.

Lemma map_const_seq {A} (v : A) (g : nat -> A) (n : nat) :
  (forall i, i < n -> g i = v) -> map g (seq 0 n) = repeat v n.
Proof.
  intros H. rewrite <- (length_seq n 0) at 2. rewrite <- map_const.
  apply map_ext_in. intros i Hi. apply in_seq in Hi. apply H. lia.
Qed.

Lemma fmean_nil : fmean [] = NaN.
Proof. unfold fmean, fsum, zero. cbn [fold_left length fdivn]. now rewrite Qc_eqb_refl. Qed.

(** X2.  With zero samples every one of the [F] thresholds is NaN: the
    final mean runs over empty lanes and nothing zeroes its result. *)
Theorem thresholds_of_no_sample (F R C : nat) (x_inputs y_preds : ndarray) :
  shape x_inputs = [0; F; R; C] ->
  size y_preds = 0 ->
  thresholds x_inputs y_preds = Ok (mk_ndarray [F] (repeat NaN F)).
Proof.
  intros Hx Hy.
  rewrite (@thresholds_eq 0 F R C) by
    (try assumption; now rewrite Hy, (size_4d _ Hx)).
  f_equal. f_equal. apply map_const_seq. intros f _.
  unfold expected_threshold. cbn [seq map]. apply fmean_nil.
Qed.

Lemma thresholds_of_no_sample_witness :
  thresholds x_no_sample x_empty = Ok (mk_ndarray [3] (repeat NaN 3)).
Proof.
  apply (@thresholds_of_no_sample 3 1 2); reflexivity.
Defined.

(** X3.  With at least one sample but no location ([R * C = 0]) every
    threshold is exactly zero: each per-sample mean is NaN and is zeroed. *)
Theorem thresholds_of_no_location (N F R C : nat) (x_inputs y_preds : ndarray) :
  shape x_inputs = [N; F; R; C] ->
  size y_preds = 0 ->
  R * C = 0 -> 0 < N ->
  thresholds x_inputs y_preds = Ok (mk_ndarray [F] (repeat zero F)).
Proof.
  intros Hx Hy HK HN.
  rewrite (@thresholds_eq N F R C) by
    (try assumption; rewrite Hy, (size_4d _ Hx); nia).
  f_equal. f_equal. apply map_const_seq. intros f _.
  unfold expected_threshold. apply fmean_zeros.
  - destruct N; [lia|]. discriminate.
  - apply Forall_map, Forall_forall. intros n _.
    unfold lane_mae. rewrite HK. cbn [seq map]. now rewrite fmean_nil.
Qed.

Lemma thresholds_of_no_location_witness :
  thresholds x_no_location x_empty = Ok (mk_ndarray [2] (repeat zero 2)).
Proof.
  apply (@thresholds_of_no_location 1 2 0 3); try reflexivity. lia.
Defined.

Lemma fabs_fsub_comm (a b : fval) : fabs (fsub a b) = fabs (fsub b a).
Proof.
  destruct a as [|s|p], b as [|s'|q]; unfold fsub; cbn [fneg fadd fabs];
    try reflexivity.
  - now destruct s, s'.
  - f_equal. rewrite <- (Qcabs_opp (p + - q)). f_equal. ring.
Qed.

(** X4.  The thresholds do not depend on which stack is called input and
    which prediction: swapping two stacks of one shape gives the same
    result. *)
Theorem thresholds_symmetric (N F R C : nat) (x_inputs y_preds : ndarray) :
  shape x_inputs = [N; F; R; C] ->
  shape y_preds = [N; F; R; C] ->
  thresholds x_inputs y_preds = thresholds y_preds x_inputs.
Proof.
  intros Hx Hy.
  assert (Hs : size y_preds = size x_inputs)
    by now rewrite (size_4d _ Hx), (size_4d _ Hy).
  rewrite (@thresholds_eq N F R C x_inputs y_preds Hx Hs).
  rewrite (@thresholds_eq N F R C y_preds x_inputs Hy (eq_sym Hs)).
  f_equal. f_equal. apply map_ext. intros f.
  unfold expected_threshold. f_equal. apply map_ext. intros n. f_equal.
  unfold lane_mae. f_equal. apply map_ext. intros k. apply fabs_fsub_comm.
Qed.

Lemma thresholds_symmetric_witness :
  thresholds x_nan y_small = thresholds y_small x_nan.
Proof.
  apply (@thresholds_symmetric 1 2 1 2); reflexivity.
Defined.

Lemma at3_getitem (N F R C : nat) (a : ndarray) (n f r c : nat) :
  shape a = [N; F; R; C] ->
  at3 F (R * C) a n f (r * C + c) = getitem a [n; f; r; c].
Proof.
  intros Ha. unfold at3. rewrite (getitem_4d _ _ _ _ _ Ha). f_equal. lia.
Qed.

Lemma location_mean_ext (R C : nat) (x y x' y' : ndarray) (n f : nat) :
  (forall r c, r < R -> c < C ->
     getitem x [n; f; r; c] = getitem x' [n; f; r; c] /\
     getitem y [n; f; r; c] = getitem y' [n; f; r; c]) ->
  location_mean R C x y n f = location_mean R C x' y' n f.
Proof.
  intros H. unfold location_mean. f_equal.
  apply flat_map_ext_in. intros r Hr. apply map_ext_in. intros c Hc.
  apply in_seq in Hr, Hc. unfold abs_diff.
  destruct (H r c) as [-> ->]; [lia|lia|reflexivity].
Qed.

(** X5.  The threshold of a feature is computed from the entries of that
    feature alone: two pairs of stacks that agree on feature [f] get the
    same threshold for [f], whatever the other features hold (NaN
    included). *)
Theorem threshold_depends_on_its_feature_only (N F R C : nat)
    (x y x' y' : ndarray) (f : nat) :
  shape x = [N; F; R; C] -> shape y = [N; F; R; C] ->
  shape x' = [N; F; R; C] -> shape y' = [N; F; R; C] ->
  f < F ->
  (forall n r c, n < N -> r < R -> c < C ->
     getitem x [n; f; r; c] = getitem x' [n; f; r; c] /\
     getitem y [n; f; r; c] = getitem y' [n; f; r; c]) ->
  exists t t',
    thresholds x y = Ok t /\ thresholds x' y' = Ok t' /\
    getitem t [f] = getitem t' [f].
Proof.
  intros Hx Hy Hx' Hy' Hf Hagree.
  assert (Hs : size y = size x) by now rewrite (size_4d _ Hx), (size_4d _ Hy).
  assert (Hs' : size y' = size x') by now rewrite (size_4d _ Hx'), (size_4d _ Hy').
  eexists _, _.
  split; [apply (@thresholds_eq N F R C); assumption|].
  split; [apply (@thresholds_eq N F R C); assumption|].
  rewrite !getitem_1d, !nth_map_seq by assumption.
  unfold expected_threshold. f_equal. apply map_ext_in. intros n Hn.
  apply in_seq in Hn. f_equal.
  rewrite (@location_mean_eq N F R C x y n f Hx Hy),
    (@location_mean_eq N F R C x' y' n f Hx' Hy').
  apply location_mean_ext. intros r c Hr Hc. apply Hagree; lia.
Qed.

Lemma threshold_depends_on_its_feature_only_witness :
  exists t t',
    thresholds x_nan y_small = Ok t /\ thresholds x_nan' y_small' = Ok t' /\
    getitem t [0] = getitem t' [0].
Proof.
  apply (@threshold_depends_on_its_feature_only 1 2 1 2); try reflexivity; [lia|].
  intros n r c Hn Hr Hc.
  destruct n as [|n]; [|lia]. destruct r as [|r]; [|lia].
  destruct c as [|[|c]]; [split; reflexivity|split; reflexivity|lia].
Defined.

Lemma fold_fadd_NaN (l : list fval) : fold_left fadd l NaN = NaN.
Proof. induction l as [|v l IH]; [reflexivity|exact IH]. Qed.

Lemma fsum_with_NaN (l : list fval) : In NaN l -> fsum l = NaN.
Proof.
  unfold fsum. generalize zero. induction l as [|v l IH]; intros acc Hin.
  - destruct Hin.
  - cbn [fold_left]. destruct Hin as [->|Hin].
    + replace (fadd acc NaN) with NaN by now destruct acc.
      apply fold_fadd_NaN.
    + now apply IH.
Qed.

Lemma fabs_fsub_NaN (a b : fval) : a = NaN \/ b = NaN -> fabs (fsub a b) = NaN.
Proof. intros [-> | ->]; [reflexivity|now destruct a]. Qed.

(** X6.  One NaN (in either stack) at any location of sample [n] and
    feature [f] erases that sample's whole contribution to the feature: the
    entry [(f, n)] of the zeroed intermediate array is exactly zero,
    whatever the other locations hold. *)
Theorem one_nan_erases_the_sample (N F R C : nat)
    (x_inputs y_preds : ndarray) (n f r c : nat) :
  shape x_inputs = [N; F; R; C] ->
  shape y_preds = [N; F; R; C] ->
  n < N -> f < F -> r < R -> c < C ->
  getitem x_inputs [n; f; r; c] = NaN \/ getitem y_preds [n; f; r; c] = NaN ->
  exists m, mae_loss x_inputs y_preds = Ok m /\ getitem m [f; n] = zero.
Proof.
  intros Hx Hy Hn Hf Hr Hc Hnan.
  assert (Hs : size y_preds = size x_inputs)
    by now rewrite (size_4d _ Hx), (size_4d _ Hy).
  eexists. split; [apply (@mae_loss_eq N F R C); assumption|].
  rewrite getitem_2d, nth_tabulate2 by assumption.
  unfold lane_mae, fmean. rewrite fsum_with_NaN; [reflexivity|].
  apply in_map_iff. exists (r * C + c). split.
  - rewrite (@at3_getitem N F R C _ n f r c Hx), (@at3_getitem N F R C _ n f r c Hy).
    apply fabs_fsub_NaN. tauto.
  - apply in_seq. split; [lia|]. now apply index_in_range.
Qed.

Lemma one_nan_erases_the_sample_witness :
  exists m, mae_loss x_nan y_small = Ok m /\ getitem m [0; 0] = zero.
Proof.
  apply (@one_nan_erases_the_sample 1 2 1 2 x_nan y_small 0 0 0 1);
    try reflexivity; try lia.
  left. reflexivity.
Defined.

(** X8.  The intermediate array and the thresholds are well-formed arrays:
    [F * N] and [F] elements for shapes [(F, N)] and [(F)]. *)
Theorem results_are_well_formed (N F R C : nat) (x_inputs y_preds : ndarray) :
  shape x_inputs = [N; F; R; C] ->
  size y_preds = N * F * R * C ->
  exists m t,
    mae_loss x_inputs y_preds = Ok m /\ wf m /\ size m = F * N /\
    thresholds x_inputs y_preds = Ok t /\ wf t /\ size t = F.
Proof.
  intros Hx Hy.
  assert (Hs : size y_preds = size x_inputs) by now rewrite Hy, (size_4d _ Hx).
  eexists _, _.
  split; [apply (@mae_loss_eq N F R C); assumption|].
  split; [|split; [|split; [apply (@thresholds_eq N F R C); assumption|]]].
  - unfold wf, size. cbn [shape data size_of fold_right].
    rewrite (@flat_map_uniform_length _ _ N), length_seq
      by (intros; now rewrite length_map, length_seq).
    lia.
  - unfold size. cbn [shape size_of fold_right]. lia.
  - split.
    + unfold wf, size. cbn [shape data size_of fold_right].
      rewrite length_map, length_seq. lia.
    + unfold size. cbn [shape size_of fold_right]. lia.
Qed.

Lemma results_are_well_formed_witness :
  exists m t,
    mae_loss x_small y_flat = Ok m /\ wf m /\ size m = 2 * 1 /\
    thresholds x_small y_flat = Ok t /\ wf t /\ size t = 2.
Proof.
  apply (@results_are_well_formed 1 2 1 2); reflexivity.
Defined.

(* ================================================================== *)
(** ** The string operations of the notebook *)

Lemma append_assoc (a b c : string) :
  String.append (String.append a b) c = String.append a (String.append b c).
Proof. induction a as [|ch a IH]; cbn; [reflexivity|now rewrite IH]. Qed.

Lemma append_empty_r (a : string) : String.append a EmptyString = a.
Proof. induction a as [|ch a IH]; cbn; [reflexivity|now rewrite IH]. Qed.

Lemma prefix_iff (a b : string) :
  String.prefix a b = true <-> exists post, b = String.append a post.
Proof.
  revert b. induction a as [|ch a IH]; intros b.
  - split; [intros _; now exists b|intros _; now destruct b].
  - destruct b as [|ch' b]; cbn.
    + split; [discriminate|intros [post H]; discriminate].
    + destruct (ascii_dec ch ch') as [->|Hne].
      * rewrite IH. split; intros [post H]; exists post; congruence.
      * split; [discriminate|]. intros [post H]. congruence.
Qed.

(** X9.  The test [needle in hay] of the duplicate-name check holds exactly
    when [needle] occurs somewhere inside [hay], with any text before and
    after it. *)
Theorem contains_iff_occurs (needle hay : string) :
  contains needle hay = true <->
  exists pre post, hay = String.append pre (String.append needle post).
Proof.
  split.
  - induction hay as [|ch hay IH]; cbn [contains]; rewrite orb_true_iff;
      intros [H|H]; try discriminate.
    + apply prefix_iff in H. destruct H as [post H]. now exists EmptyString, post.
    + apply prefix_iff in H. destruct H as [post H]. now exists EmptyString, post.
    + destruct (IH H) as [pre [post ->]]. now exists (String ch pre), post.
  - intros [pre [post ->]]. induction pre as [|ch pre IH].
    + cbn [String.append].
      assert (Hp : String.prefix needle (String.append needle post) = true)
        by (apply prefix_iff; now exists post).
      destruct (String.append needle post); cbn [contains]; now rewrite Hp.
    + cbn [String.append contains]. rewrite IH. apply orb_true_r.
Qed.

Lemma split_from_nonempty (sep : ascii) (m : nat) (cur s : string) :
  split_from sep m cur s <> [].
Proof.
  revert m cur. induction s as [|c s IH]; intros m cur; cbn; [discriminate|].
  destruct m; [apply IH|]. destruct (Ascii.eqb c sep); [discriminate|apply IH].
Qed.

Lemma last_cons_nonempty {A} (a d : A) (l : list A) :
  l <> [] -> last (a :: l) d = last l d.
Proof. destruct l; [congruence|reflexivity]. Qed.

Lemma count_char_app (sep : ascii) (a b : string) :
  count_char sep (String.append a b) = count_char sep a + count_char sep b.
Proof. induction a as [|c a IH]; cbn; [reflexivity|rewrite IH; lia]. Qed.

Lemma last_segment (sep : ascii) (s : string) :
  forall cur m, String.length s <= m -> count_char sep cur = 0 ->
  exists pre,
    String.append cur s
    = String.append pre (last_item (split_from sep m cur s)) /\
    (pre = EmptyString \/
     exists pre', pre = String.append pre' (String sep EmptyString)) /\
    count_char sep (last_item (split_from sep m cur s)) = 0.
Proof.
  induction s as [|c s IH]; intros cur m Hm Hcur.
  - exists EmptyString. cbn. rewrite append_empty_r. auto.
  - destruct m as [|m]; [cbn in Hm; lia|]. cbn [split_from].
    destruct (Ascii.eqb c sep) eqn:E.
    + apply Ascii.eqb_eq in E. subst c.
      destruct (IH EmptyString m) as [pre [H1 [H2 H3]]];
        [cbn in Hm; lia|reflexivity|].
      unfold last_item in *.
      rewrite last_cons_nonempty by apply split_from_nonempty.
      exists (String.append cur (String sep pre)). split; [|split].
      * rewrite append_assoc. cbn [String.append] in *. now rewrite <- H1.
      * right. destruct H2 as [->|[pre' ->]].
        -- now exists cur.
        -- exists (String.append cur (String sep pre')).
           rewrite append_assoc. reflexivity.
      * exact H3.
    + destruct (IH (String.append cur (String c EmptyString)) (S m))
        as [pre [H1 [H2 H3]]].
      * cbn in Hm. lia.
      * rewrite count_char_app, Hcur. cbn. now rewrite E.
      * exists pre. rewrite append_assoc in H1. cbn [String.append] in H1. auto.
Qed.

(** X10.  The execution id taken from the execution ARN is its part after
    the last ['/']: the ARN is some prefix, empty or ending in ['/'],
    followed by the id, and the id holds no ['/'] (for an ARN without any
    ['/'] the id is the whole ARN). *)
Theorem execution_id_is_the_last_segment (pipeline_execution_arn : string) :
  exists pre,
    pipeline_execution_arn
    = String.append pre (execution_id pipeline_execution_arn) /\
    (pre = EmptyString \/ exists pre', pre = String.append pre' "/") /\
    count_char "/" (execution_id pipeline_execution_arn) = 0.
Proof.
  unfold execution_id, split, split_max.
  exact (@last_segment "/" pipeline_execution_arn EmptyString
           (String.length pipeline_execution_arn) (le_n _) eq_refl).
Qed.

Lemma split_from_zero (sep : ascii) (s cur : string) :
  split_from sep 0 cur s = [String.append cur s].
Proof.
  revert cur. induction s as [|c s IH]; intros cur; cbn [split_from].
  - now rewrite append_empty_r.
  - rewrite IH, append_assoc. reflexivity.
Qed.

Lemma split_from_segment (sep : ascii) (m : nat) (a rest cur : string) :
  count_char sep a = 0 ->
  split_from sep (S m) cur (String.append a (String sep rest))
  = String.append cur a :: split_from sep m EmptyString rest.
Proof.
  revert cur. induction a as [|c a IH]; intros cur Ha; cbn [String.append split_from].
  - rewrite Ascii.eqb_refl, append_empty_r. reflexivity.
  - cbn [count_char] in Ha. destruct (Ascii.eqb c sep); [discriminate|].
    rewrite IH by exact Ha. rewrite append_assoc. reflexivity.
Qed.

Lemma split_from_length (sep : ascii) (s : string) :
  forall m cur, length (split_from sep m cur s) = S (Nat.min m (count_char sep s)).
Proof.
  induction s as [|c s IH]; intros m cur; cbn [split_from count_char].
  - now rewrite Nat.min_0_r.
  - destruct m as [|m]; [now rewrite IH|].
    destruct (Ascii.eqb c sep); cbn [length]; rewrite IH; cbn; lia.
Qed.

Import PostRun.

(** X11.  For a training input URI of the form [a/b/bucket/key] with no
    ['/'] inside [a], [b] and [bucket] (as in [s3://bucket/key], where [a]
    is [s3:] and [b] is empty), the setup cell downloads from exactly that
    bucket and that key prefix, slashes of the key included, into
    [data/input/], and returns the job name and the estimator iff the
    download succeeds. *)
Theorem setup_cell_downloads_from_the_parsed_uri (svc : services)
    (pipeline_execution_arn role job a b bucket key : string) (est : estimator) :
  get_execution_role svc = Ok role ->
  list_training_jobs svc (execution_id pipeline_execution_arn) "Completed"
  = Ok [job] ->
  attach svc job = Ok est ->
  describe_training_job svc job
  = Ok (String.append a (String "/" (String.append b (String "/"
         (String.append bucket (String "/" key)))))) ->
  count_char "/" a = 0 -> count_char "/" b = 0 -> count_char "/" bucket = 0 ->
  setup_cell svc pipeline_execution_arn
  = ([Call "get_execution_role" "sagemaker";
      Call "list_training_jobs" (execution_id pipeline_execution_arn);
      Call "Estimator.attach" job;
      Call "describe_training_job" job;
      Call "download_data" "data/input/"],
     match download_data svc bucket key "data/input/" with
     | Ok _ => Done (job, est)
     | Raise e => Raised e
     end).
Proof.
  intros Hrole Hlist Hatt Hdesc Ha Hb Hbucket.
  unfold setup_cell. rewrite Hrole, Hlist. cbn [call sbind length Nat.eqb assert ret].
  cbn [list_getitem nth_error of_result sbind app]. rewrite Hatt.
  cbn [call sbind app]. rewrite Hdesc. cbn [call sbind app].
  unfold split_max.
  rewrite !split_from_segment by assumption. rewrite split_from_zero.
  cbn [list_getitem nth_error of_result sbind app String.append].
  destruct (download_data svc bucket key "data/input/") as [[]|e]; reflexivity.
Qed.

(** X12.  When the training input URI holds fewer than three ['/'], the
    indexing of its tokens raises [IndexError] and nothing is downloaded. *)
Theorem setup_cell_rejects_a_short_uri (svc : services)
    (pipeline_execution_arn role job uri : string) (est : estimator) :
  get_execution_role svc = Ok role ->
  list_training_jobs svc (execution_id pipeline_execution_arn) "Completed"
  = Ok [job] ->
  attach svc job = Ok est ->
  describe_training_job svc job = Ok uri ->
  count_char "/" uri < 3 ->
  setup_cell svc pipeline_execution_arn
  = ([Call "get_execution_role" "sagemaker";
      Call "list_training_jobs" (execution_id pipeline_execution_arn);
      Call "Estimator.attach" job;
      Call "describe_training_job" job],
     Raised IndexError).
Proof.
  intros Hrole Hlist Hatt Hdesc Hcount.
  unfold setup_cell. rewrite Hrole, Hlist. cbn [call sbind length Nat.eqb assert ret].
  cbn [list_getitem nth_error of_result sbind app]. rewrite Hatt.
  cbn [call sbind app]. rewrite Hdesc. cbn [call sbind app].
  assert (H3 : nth_error (split_max "/" 3 uri) 3 = None).
  { apply nth_error_None. unfold split_max. rewrite split_from_length. lia. }
  unfold list_getitem. rewrite H3.
  destruct (nth_error (split_max "/" 3 uri) 2); reflexivity.
Qed.

Lemma setup_cell_downloads_from_the_parsed_uri_witness :
  setup_cell (account "s3://bucket/wind/train/data" y_small
                (two_polls_then "INPROGRESS" "COMPLETED")
                (two_polls_then "INPROGRESS" "COMPLETED"))
             "arn:aws:sagemaker:pipeline/wt/execution/abc123"
  = ([Call "get_execution_role" "sagemaker";
      Call "list_training_jobs" "abc123";
      Call "Estimator.attach" "pipelines-abc123-train";
      Call "describe_training_job" "pipelines-abc123-train";
      Call "download_data" "data/input/"],
     Done ("pipelines-abc123-train"%string,
           PostRun.mk_estimator "s3://bucket/output/")).
Proof.
  exact (@setup_cell_downloads_from_the_parsed_uri
           (account "s3://bucket/wind/train/data" y_small
              (two_polls_then "INPROGRESS" "COMPLETED")
              (two_polls_then "INPROGRESS" "COMPLETED"))
           "arn:aws:sagemaker:pipeline/wt/execution/abc123"
           "arn:aws:iam::role/sagemaker" "pipelines-abc123-train"
           "s3:" EmptyString "bucket" "wind/train/data"
           (PostRun.mk_estimator "s3://bucket/output/")
           eq_refl eq_refl eq_refl eq_refl eq_refl eq_refl eq_refl).
Defined.

Lemma setup_cell_rejects_a_short_uri_witness :
  setup_cell (account "s3://bucket" y_small
                (two_polls_then "INPROGRESS" "COMPLETED")
                (two_polls_then "INPROGRESS" "COMPLETED"))
             "arn:aws:sagemaker:pipeline/wt/execution/abc123"
  = ([Call "get_execution_role" "sagemaker";
      Call "list_training_jobs" "abc123";
      Call "Estimator.attach" "pipelines-abc123-train";
      Call "describe_training_job" "pipelines-abc123-train"],
     Raised IndexError).
Proof.
  refine (@setup_cell_rejects_a_short_uri
            (account "s3://bucket" y_small
               (two_polls_then "INPROGRESS" "COMPLETED")
               (two_polls_then "INPROGRESS" "COMPLETED"))
            "arn:aws:sagemaker:pipeline/wt/execution/abc123"
            "arn:aws:iam::role/sagemaker" "pipelines-abc123-train" "s3://bucket"
            (PostRun.mk_estimator "s3://bucket/output/")
            eq_refl eq_refl eq_refl eq_refl _).
  cbn. lia.
Defined.

(* ================================================================== *)
(** ** Further behaviour of the pipeline creation cell *)

(** X13.  When [pipeline.create] succeeds the cell never calls [describe]:
    it tags the created ARN, prints it and returns it; if the tagging
    raises, that exception leaves the cell and nothing is printed. *)
Theorem created_pipeline_is_never_described (svc : service) (r : response) :
  create svc = Ok r ->
  calls_to "pipeline.describe" (trace (create_pipeline_cell svc)) = 0 /\
  (add_tags svc (PipelineArn r) = Ok tt ->
     create_pipeline_cell svc
     = ([Call "pipeline.create" "role"; Call "add_tags" (PipelineArn r);
         Printed (PipelineArn r)], Done (PipelineArn r))) /\
  (forall e, add_tags svc (PipelineArn r) = Raise e ->
     create_pipeline_cell svc
     = ([Call "pipeline.create" "role"; Call "add_tags" (PipelineArn r)],
        Raised e)).
Proof.
  intros Hc. unfold create_pipeline_cell, tag_and_print. rewrite Hc.
  cbn [call try_except_ClientError sbind].
  destruct (add_tags svc (PipelineArn r)) as [[]|e]; cbn.
  - split; [reflexivity|]. split; [reflexivity|discriminate].
  - split; [reflexivity|]. split; [discriminate|]. now intros e' [= ->].
Qed.

Lemma created_pipeline_is_never_described_witness :
  create_pipeline_cell fresh
  = ([Call "pipeline.create" "role"; Call "add_tags" "arn:aws:sagemaker:pipeline/new";
      Printed "arn:aws:sagemaker:pipeline/new"],
     Done "arn:aws:sagemaker:pipeline/new"%string).
Proof.
  destruct (@created_pipeline_is_never_described fresh _ eq_refl) as [_ [H _]].
  apply H. reflexivity.
Defined.

(** X14.  Whenever the cell returns an ARN, that ARN was tagged
    successfully and printed last, and it is the ARN of the pipeline just
    created or, after the duplicate-name error, of the pipeline described. *)
Theorem returned_arn_is_tagged (svc : service) (arn : string) :
  result_of (create_pipeline_cell svc) = Done arn ->
  add_tags svc arn = Ok tt /\
  ((exists r, create svc = Ok r /\ PipelineArn r = arn /\
      trace (create_pipeline_cell svc)
      = [Call "pipeline.create" "role"; Call "add_tags" arn; Printed arn]) \/
   (exists message r,
      create svc = Raise (ClientError "ValidationError" message) /\
      contains "Pipeline names must be unique within" message = true /\
      describe svc = Ok r /\ PipelineArn r = arn /\
      trace (create_pipeline_cell svc)
      = [Call "pipeline.create" "role"; Printed message;
         Call "pipeline.describe" EmptyString; Call "add_tags" arn; Printed arn])).
Proof.
  unfold create_pipeline_cell, tag_and_print.
  destruct (create svc) as [r|e] eqn:Hc.
  - cbn [call try_except_ClientError sbind].
    destruct (add_tags svc (PipelineArn r)) as [[]|e] eqn:Ht; cbn;
      [|discriminate].
    intros [= <-]. split; [exact Ht|]. left. now exists r.
  - destruct e as [| | | | | | |code message|name]; try discriminate.
    cbn [call try_except_ClientError].
    destruct (String.eqb code "ValidationError") eqn:Ecode;
      [|discriminate].
    destruct (contains "Pipeline names must be unique within" message) eqn:Emsg;
      [|discriminate].
    apply String.eqb_eq in Ecode. subst code. cbn [andb print sbind].
    destruct (describe svc) as [r|e] eqn:Hd; cbn [call sbind app]; [|discriminate].
    destruct (add_tags svc (PipelineArn r)) as [[]|e] eqn:Ht; cbn;
      [|discriminate].
    intros [= <-]. split; [exact Ht|]. right. now exists message, r.
Qed.

Lemma returned_arn_is_tagged_witness :
  add_tags taken "arn:aws:sagemaker:pipeline/windturbine" = Ok tt /\
  ((exists r, create taken = Ok r /\
      PipelineArn r = "arn:aws:sagemaker:pipeline/windturbine"%string /\
      trace (create_pipeline_cell taken)
      = [Call "pipeline.create" "role";
         Call "add_tags" "arn:aws:sagemaker:pipeline/windturbine";
         Printed "arn:aws:sagemaker:pipeline/windturbine"]) \/
   (exists message r,
      create taken = Raise (ClientError "ValidationError" message) /\
      contains "Pipeline names must be unique within" message = true /\
      describe taken = Ok r /\
      PipelineArn r = "arn:aws:sagemaker:pipeline/windturbine"%string /\
      trace (create_pipeline_cell taken)
      = [Call "pipeline.create" "role"; Printed message;
         Call "pipeline.describe" EmptyString;
         Call "add_tags" "arn:aws:sagemaker:pipeline/windturbine";
         Printed "arn:aws:sagemaker:pipeline/windturbine"])).
Proof.
  apply (@returned_arn_is_tagged taken). reflexivity.
Defined.

(* ================================================================== *)
(** ** Further behaviour of the wait loops *)

Section WaitLoopFailure.

Variables (api job printed : string) (running : string -> bool) (interval : nat).
Variable describe : nat -> result string.

Lemma wait_loop_raises (k : nat) (e : exn) :
  forall i fuel,
  (forall j, j < k -> exists sj, describe (i + j) = Ok sj /\ running sj = true) ->
  describe (i + k) = Raise e ->
  k < fuel ->
  wait_loop api job running interval printed describe i fuel
  = (concat (repeat (Polling.again api job interval) k) ++ [Call api job],
     Raised e).
Proof.
  induction k as [|k IH]; intros i fuel Hrun Hk Hfuel;
    (destruct fuel as [|fuel]; [lia|]).
  - rewrite Nat.add_0_r in Hk. cbn [wait_loop]. now rewrite Hk.
  - destruct (Hrun 0) as [s0 [Hd0 Hr0]]; [lia|]. rewrite Nat.add_0_r in Hd0.
    rewrite (@wait_loop_again api job printed running interval describe
               i fuel s0 Hd0 Hr0).
    rewrite (IH (S i) fuel); try lia.
    + cbn [trace result_of fst snd repeat concat]. now rewrite <- app_assoc.
    + intros j Hj. destruct (Hrun (S j)) as [sj Hsj]; [lia|].
      exists sj. now replace (S i + j) with (i + S j) by lia.
    + now replace (S i + k) with (i + S k) by lia.
Qed.

End WaitLoopFailure.

(** X16.  An exception of a describe call ends the wait loop at once: after
    [k] polls that found the job running, the failing call is the last
    event (no print, no sleep after it) and its exception leaves the loop. *)
Theorem describe_failure_leaves_the_loop (w : loop) (name other : string)
    (describe : nat -> result string) (k : nat) (e : exn) :
  (forall j, j < k -> exists sj, describe j = Ok sj /\ In sj (running_set w)) ->
  describe k = Raise e ->
  forall fuel, k < fuel ->
    run w name other describe 0 fuel
    = (concat (repeat (running_iteration w name) k) ++ [Call (describe_api w) name],
       Raised e).
Proof.
  intros Hrun Hk fuel Hfuel. rewrite run_eq.
  apply wait_loop_raises; try assumption.
  intros j Hj. destruct (Hrun j Hj) as [sj [Hd Hin]].
  exists sj. split; [assumption|now apply running_test_iff].
Qed.

Lemma describe_failure_leaves_the_loop_witness :
  run EdgePackagingJob "job" "other" (two_polls_then_fails "STARTING") 0 4
  = (concat (repeat (running_iteration EdgePackagingJob "job") 2)
       ++ [Call (describe_api EdgePackagingJob) "job"],
     Raised (ClientError "ThrottlingException" "Rate exceeded")).
Proof.
  apply (@describe_failure_leaves_the_loop EdgePackagingJob "job" "other"
           (two_polls_then_fails "STARTING") 2); [|reflexivity|lia].
  intros j Hj. exists "STARTING"%string. split; [|now left].
  destruct j as [|[|j]]; [reflexivity|reflexivity|lia].
Defined.

Lemma slept_app (t t' : list event) : slept (t ++ t') = slept t + slept t'.
Proof.
  induction t as [|[api arg|s|n] t IH]; cbn [app slept]; try assumption;
    [reflexivity|rewrite IH; lia].
Qed.

Lemma calls_to_app (api : string) (t t' : list event) :
  calls_to api (t ++ t') = calls_to api t + calls_to api t'.
Proof.
  induction t as [|[a arg|s|n] t IH]; cbn [app calls_to]; try assumption;
    [reflexivity|rewrite IH; lia].
Qed.

Lemma slept_iterations (t : list event) (k : nat) :
  slept (concat (repeat t k)) = k * slept t.
Proof.
  induction k as [|k IH]; [reflexivity|].
  cbn [repeat concat]. rewrite slept_app, IH. lia.
Qed.

Lemma calls_to_iterations (api : string) (t : list event) (k : nat) :
  calls_to api (concat (repeat t k)) = k * calls_to api t.
Proof.
  induction k as [|k IH]; [reflexivity|].
  cbn [repeat concat]. rewrite calls_to_app, IH. lia.
Qed.

(** X17.  A wait loop that leaves at poll [k] (counted from zero) has
    issued [k + 1] describe calls and slept [k] times its interval in all:
    [30 * k] seconds for the pipeline execution, [5 * k] for the other two. *)
Theorem wait_loop_cost (w : loop) (name other : string)
    (describe : nat -> result string) (k : nat) (s : string) :
  (forall j, j < k -> exists sj, describe j = Ok sj /\ In sj (running_set w)) ->
  describe k = Ok s -> ~ In s (running_set w) ->
  forall fuel, k < fuel ->
    slept (trace (run w name other describe 0 fuel)) = k * sleep_interval w /\
    calls_to (describe_api w) (trace (run w name other describe 0 fuel)) = S k.
Proof.
  intros Hrun Hk Hs fuel Hfuel. rewrite run_eq.
  rewrite (@wait_loop_exits (describe_api w) name (printed_name w name other)
             (running_test w) (sleep_interval w) describe k s 0 fuel);
    try assumption.
  - cbn [trace fst]. rewrite slept_app, calls_to_app, slept_iterations,
      calls_to_iterations.
    cbn [Polling.again Polling.leave slept calls_to].
    rewrite String.eqb_refl. split; lia.
  - intros j Hj. destruct (Hrun j Hj) as [sj [Hd Hin]].
    exists sj. split; [assumption|now apply running_test_iff].
  - now apply running_test_false_iff.
Qed.

Lemma wait_loop_cost_witness :
  slept (trace (run PipelineExecution "arn" "other"
                  (two_polls_then "Executing" "Failed") 0 10)) = 2 * 30 /\
  calls_to "describe_pipeline_execution"
    (trace (run PipelineExecution "arn" "other"
              (two_polls_then "Executing" "Failed") 0 10)) = 3.
Proof.
  apply (@wait_loop_cost PipelineExecution "arn" "other"
           (two_polls_then "Executing" "Failed") 2 "Failed");
    [|reflexivity| |lia].
  - intros j Hj. exists "Executing"%string. split; [|now left].
    destruct j as [|[|j]]; [reflexivity|reflexivity|lia].
  - intros [Hin|[]]. discriminate Hin.
Defined.

(* ================================================================== *)
(** ** How the cells of parts 3 and 4 chain *)

Lemma wait_loop_calls_its_api_only (api job printed : string)
    (running : string -> bool) (interval : nat)
    (describe : nat -> result string) (other : string) :
  String.eqb api other = false ->
  forall fuel i,
    calls_to other
      (trace (wait_loop api job running interval printed describe i fuel)) = 0.
Proof.
  intros Hne. induction fuel as [|fuel IH]; intros i; [reflexivity|].
  destruct (describe i) as [s|e] eqn:Hd.
  - destruct (running s) eqn:Hr.
    + rewrite (@wait_loop_again api job printed running interval describe
                 i fuel s Hd Hr).
      cbn [trace fst Polling.again app calls_to]. rewrite Hne. apply IH.
    + rewrite (@wait_loop_leave api job printed running interval describe
                 i fuel s Hd Hr).
      cbn [trace fst Polling.leave calls_to]. now rewrite Hne.
  - cbn [wait_loop]. rewrite Hd. cbn [call sbind trace fst calls_to].
    now rewrite Hne.
Qed.

(** X19.  The compilation cell ends normally on whatever status takes the
    job out of ['STARTING'] / ['INPROGRESS'], a failure status included: the
    status is printed and returned, no exception is raised, and the run goes
    on to request the edge packaging job, exactly once. *)
Theorem finished_compilation_starts_packaging (svc : services) (k : nat) (s : string) :
  create_compilation_job svc (compilation_job_name svc) = Ok tt ->
  (forall j, j < k ->
     exists sj, describe_compilation_job svc j = Ok sj /\
                In sj (running_set CompilationJob)) ->
  describe_compilation_job svc k = Ok s ->
  ~ In s (running_set CompilationJob) ->
  forall fuel, k < fuel ->
    compilation_cell svc fuel
    = (Call "create_compilation_job" (compilation_job_name svc)
         :: concat (repeat (running_iteration CompilationJob
                              (compilation_job_name svc)) k)
         ++ last_iteration CompilationJob (compilation_job_name svc)
              (compilation_job_name svc) s,
       Done s) /\
    calls_to "create_edge_packaging_job"
      (trace (compilation_cell svc fuel ;;;
              edge_packaging_cell svc fuel ;;;
              deployment_cell svc)) = 1.
Proof.
  intros Hcreate Hrun Hk Hs fuel Hfuel.
  assert (Hcell : compilation_cell svc fuel
    = (Call "create_compilation_job" (compilation_job_name svc)
         :: concat (repeat (running_iteration CompilationJob
                              (compilation_job_name svc)) k)
         ++ last_iteration CompilationJob (compilation_job_name svc)
              (compilation_job_name svc) s,
       Done s)).
  { unfold compilation_cell. rewrite Hcreate.
    change (wait_compilation_job (compilation_job_name svc))
      with (run CompilationJob (compilation_job_name svc)
              (compilation_job_name svc)).
    rewrite run_eq.
    rewrite (@wait_loop_exits (describe_api CompilationJob)
               (compilation_job_name svc)
               (printed_name CompilationJob (compilation_job_name svc)
                  (compilation_job_name svc))
               (running_test CompilationJob) (sleep_interval CompilationJob)
               (describe_compilation_job svc) k s 0 fuel); try assumption.
    - reflexivity.
    - intros j Hj. destruct (Hrun j Hj) as [sj [Hd Hin]].
      exists sj. split; [assumption|now apply running_test_iff].
    - now apply running_test_false_iff. }
  split; [exact Hcell|].
  rewrite trace_sbind, Hcell. cbn [trace result_of fst snd].
  rewrite calls_to_app. cbn [calls_to String.eqb Ascii.eqb Bool.eqb].
  rewrite calls_to_app, calls_to_iterations.
  cbn [running_iteration last_iteration describe_api Polling.again Polling.leave
       calls_to String.eqb Ascii.eqb Bool.eqb].
  rewrite Nat.mul_0_r. cbn [Nat.add].
  rewrite trace_sbind, calls_to_app.
  unfold edge_packaging_cell at 1. rewrite trace_sbind, trace_call, calls_to_app.
  cbn [calls_to]. rewrite String.eqb_refl.
  assert (Hloop : forall m : script unit,
            calls_to "create_edge_packaging_job"
              (match result_of m with
               | Done _ => trace (wait_edge_packaging_job
                                    (edge_packaging_job_name svc)
                                    (compilation_job_name svc)
                                    (describe_edge_packaging_job svc) 0 fuel)
               | _ => []
               end) = 0).
  { intros m. destruct (result_of m); try reflexivity.
    apply wait_loop_calls_its_api_only. reflexivity. }
  rewrite Hloop.
  assert (Hdeploy : calls_to "create_edge_packaging_job"
                      (trace (deployment_cell svc)) = 0).
  { unfold deployment_cell.
    destruct (get_caller_identity svc); [|reflexivity].
    destruct (create_job svc); reflexivity. }
  destruct (result_of (edge_packaging_cell svc fuel)); cbn [calls_to];
    rewrite ?Hdeploy; reflexivity.
Qed.

(** X20.  While the compilation job stays in ['STARTING'] / ['INPROGRESS']
    the run is still in the compilation loop, however long it is observed:
    no edge packaging job is requested and no fleet job is created. *)
Theorem unfinished_compilation_blocks_the_rest (svc : services) :
  create_compilation_job svc (compilation_job_name svc) = Ok tt ->
  (forall j, exists sj, describe_compilation_job svc j = Ok sj /\
                        In sj (running_set CompilationJob)) ->
  forall fuel,
    (compilation_cell svc fuel ;;;
     edge_packaging_cell svc fuel ;;;
     deployment_cell svc)
    = (Call "create_compilation_job" (compilation_job_name svc)
         :: concat (repeat (running_iteration CompilationJob
                              (compilation_job_name svc)) fuel),
       Pending) /\
    calls_to "create_edge_packaging_job"
      (trace (compilation_cell svc fuel ;;;
              edge_packaging_cell svc fuel ;;;
              deployment_cell svc)) = 0 /\
    calls_to "iot.create_job"
      (trace (compilation_cell svc fuel ;;;
              edge_packaging_cell svc fuel ;;;
              deployment_cell svc)) = 0.
Proof.
  intros Hcreate Hrun fuel.
  assert (Hcell : compilation_cell svc fuel
    = (Call "create_compilation_job" (compilation_job_name svc)
         :: concat (repeat (running_iteration CompilationJob
                              (compilation_job_name svc)) fuel),
       Pending)).
  { unfold compilation_cell. rewrite Hcreate.
    change (wait_compilation_job (compilation_job_name svc))
      with (run CompilationJob (compilation_job_name svc)
              (compilation_job_name svc)).
    rewrite run_eq.
    rewrite (@wait_loop_keeps_polling (describe_api CompilationJob)
               (compilation_job_name svc)
               (printed_name CompilationJob (compilation_job_name svc)
                  (compilation_job_name svc))
               (running_test CompilationJob) (sleep_interval CompilationJob)
               (describe_compilation_job svc) fuel 0).
    - reflexivity.
    - intros j _. destruct (Hrun j) as [sj [Hd Hin]].
      exists sj. split; [assumption|now apply running_test_iff]. }
  rewrite Hcell. cbn [sbind trace fst].
  split; [reflexivity|].
  cbn [calls_to String.eqb Ascii.eqb Bool.eqb].
  rewrite !calls_to_iterations.
  cbn [running_iteration describe_api Polling.again
       calls_to String.eqb Ascii.eqb Bool.eqb].
  split; lia.
Qed.

Lemma finished_compilation_starts_packaging_witness :
  compilation_cell
    (account "s3://bucket/wind/train" y_small
       (two_polls_then "INPROGRESS" "FAILED")
       (two_polls_then "INPROGRESS" "COMPLETED")) 5
  = (Call "create_compilation_job" "wind-turbine-anomaly-1"
       :: concat (repeat (running_iteration CompilationJob "wind-turbine-anomaly-1") 2)
       ++ last_iteration CompilationJob "wind-turbine-anomaly-1"
            "wind-turbine-anomaly-1" "FAILED",
     Done "FAILED"%string) /\
  calls_to "create_edge_packaging_job"
    (trace (compilation_cell
              (account "s3://bucket/wind/train" y_small
                 (two_polls_then "INPROGRESS" "FAILED")
                 (two_polls_then "INPROGRESS" "COMPLETED")) 5 ;;;
            edge_packaging_cell
              (account "s3://bucket/wind/train" y_small
                 (two_polls_then "INPROGRESS" "FAILED")
                 (two_polls_then "INPROGRESS" "COMPLETED")) 5 ;;;
            deployment_cell
              (account "s3://bucket/wind/train" y_small
                 (two_polls_then "INPROGRESS" "FAILED")
                 (two_polls_then "INPROGRESS" "COMPLETED")))) = 1.
Proof.
  apply (@finished_compilation_starts_packaging
           (account "s3://bucket/wind/train" y_small
              (two_polls_then "INPROGRESS" "FAILED")
              (two_polls_then "INPROGRESS" "COMPLETED")) 2 "FAILED");
    [reflexivity| |reflexivity| |lia].
  - intros j Hj. exists "INPROGRESS"%string. split; [|right; now left].
    destruct j as [|[|j]]; [reflexivity|reflexivity|lia].
  - intros [Hin|[Hin|[]]]; discriminate Hin.
Defined.

Lemma unfinished_compilation_blocks_the_rest_witness :
  calls_to "create_edge_packaging_job"
    (trace (compilation_cell
              (account "s3://bucket/wind/train" y_small
                 (fun _ => Ok "INPROGRESS"%string)
                 (two_polls_then "INPROGRESS" "COMPLETED")) 6 ;;;
            edge_packaging_cell
              (account "s3://bucket/wind/train" y_small
                 (fun _ => Ok "INPROGRESS"%string)
                 (two_polls_then "INPROGRESS" "COMPLETED")) 6 ;;;
            deployment_cell
              (account "s3://bucket/wind/train" y_small
                 (fun _ => Ok "INPROGRESS"%string)
                 (two_polls_then "INPROGRESS" "COMPLETED")))) = 0.
Proof.
  destruct (@unfinished_compilation_blocks_the_rest
              (account "s3://bucket/wind/train" y_small
                 (fun _ => Ok "INPROGRESS"%string)
                 (two_polls_then "INPROGRESS" "COMPLETED")) eq_refl) with (fuel := 6)
    as [_ [H _]].
  - intros j. exists "INPROGRESS"%string. split; [reflexivity|right; now left].
  - exact H.
Defined.

Lemma thresholds_reshape_error (N F R C : nat) (x y : ndarray) :
  shape x = [N; F; R; C] -> size y <> N * F * R * C ->
  thresholds x y = Raise ValueError_reshape.
Proof.
  intros Hx Hy. unfold thresholds, mae_loss.
  rewrite Hx, (reshape_3d _ _ _ _ _ (size_4d _ Hx)). cbn [bind].
  rewrite transpose_021. unfold reshape.
  rewrite (proj2 (Nat.eqb_neq _ _)) by (simpl; lia). reflexivity.
Qed.

(** X21.  The threshold cell writes [statistics/thresholds.npy] only once
    the thresholds are computed: when the loaded predictions do not have as
    many elements as the loaded inputs, the cell stops with the reshape
    error right after the two loads; otherwise it saves the [F] thresholds
    and, if the save succeeds, prints and returns them. *)
Theorem thresholds_are_saved_only_if_computed (svc : services)
    (N F R C : nat) (x_inputs y_preds : ndarray) :
  load_inputs svc = Ok x_inputs ->
  load_preds svc = Ok y_preds ->
  shape x_inputs = [N; F; R; C] ->
  (size y_preds <> N * F * R * C ->
     thresholds_cell svc
     = ([Call "np.load" "data/input/*.npy"; Call "np.load" "data/preds/*.out"],
        Raised ValueError_reshape)) /\
  (size y_preds = N * F * R * C ->
     exists t,
       thresholds x_inputs y_preds = Ok t /\ shape t = [F] /\
       (save svc t = Ok tt ->
          thresholds_cell svc
          = ([Call "np.load" "data/input/*.npy"; Call "np.load" "data/preds/*.out";
              Call "np.save" "statistics/thresholds.npy"; Printed (show svc t)],
             Done t)) /\
       (forall e, save svc t = Raise e ->
          thresholds_cell svc
          = ([Call "np.load" "data/input/*.npy"; Call "np.load" "data/preds/*.out";
              Call "np.save" "statistics/thresholds.npy"],
             Raised e))).
Proof.
  intros Hlx Hly Hx. unfold thresholds_cell. rewrite Hlx, Hly.
  cbn [call sbind app]. split.
  - intros Hy.
    now rewrite (@thresholds_reshape_error N F R C x_inputs y_preds Hx Hy).
  - intros Hy.
    assert (Hs : size y_preds = size x_inputs) by now rewrite Hy, (size_4d _ Hx).
    rewrite (@thresholds_eq N F R C x_inputs y_preds Hx Hs).
    eexists. split; [reflexivity|]. split; [reflexivity|].
    cbn [of_result sbind app]. split.
    + intros ->. reflexivity.
    + intros e ->. reflexivity.
Qed.

Lemma thresholds_are_saved_only_if_computed_witness :
  thresholds_cell (account "s3://bucket/wind/train" x_two_features
                     (two_polls_then "INPROGRESS" "COMPLETED")
                     (two_polls_then "INPROGRESS" "COMPLETED"))
  = ([Call "np.load" "data/input/*.npy"; Call "np.load" "data/preds/*.out"],
     Raised ValueError_reshape).
Proof.
  destruct (@thresholds_are_saved_only_if_computed
              (account "s3://bucket/wind/train" x_two_features
                 (two_polls_then "INPROGRESS" "COMPLETED")
                 (two_polls_then "INPROGRESS" "COMPLETED"))
              1 2 1 2 x_small x_two_features eq_refl eq_refl eq_refl) as [H _].
  apply H. cbn. lia.
Defined.

Lemma join_cons (sep t : string) (l : list string) :
  l <> [] ->
  join sep (t :: l) = String.append t (String.append sep (join sep l)).
Proof. destruct l; [congruence|reflexivity]. Qed.

Lemma join_split_from (sep : ascii) (s : string) :
  forall m cur,
    join (String sep EmptyString) (split_from sep m cur s) = String.append cur s.
Proof.
  induction s as [|c s IH]; intros m cur; cbn [split_from].
  - cbn. now rewrite append_empty_r.
  - assert (Hgo : join (String sep EmptyString)
                    (split_from sep m (String.append cur (String c EmptyString)) s)
                  = String.append cur (String c s))
      by (rewrite IH, append_assoc; reflexivity).
    destruct m as [|m]; [exact Hgo|].
    destruct (Ascii.eqb c sep) eqn:E; [|exact Hgo].
    apply Ascii.eqb_eq in E. subst c.
    rewrite join_cons by apply split_from_nonempty.
    rewrite IH. reflexivity.
Qed.

(** X15.  Splitting at a separator, with or without a limit on the number
    of splits, loses nothing: joining the tokens with the separator gives
    the string back, and there is one token more than separators used
    (the limit, or all the separators of the string when there are fewer). *)
Theorem split_then_join (sep : ascii) (maxsplit : nat) (s : string) :
  join (String sep EmptyString) (split_max sep maxsplit s) = s /\
  join (String sep EmptyString) (split sep s) = s /\
  length (split_max sep maxsplit s) = S (Nat.min maxsplit (count_char sep s)) /\
  length (split sep s) = S (count_char sep s).
Proof.
  assert (Hcount : count_char sep s <= String.length s).
  { induction s as [|c s IH]; cbn; [lia|]. destruct (Ascii.eqb c sep); lia. }
  unfold split, split_max. rewrite !join_split_from, !split_from_length.
  cbn [String.append]. repeat split. lia.
Qed.

Lemma calls_in_compilation_cell (svc : services) (fuel : nat) (other : string) :
  String.eqb "create_compilation_job" other = false ->
  String.eqb "describe_compilation_job" other = false ->
  calls_to other (trace (compilation_cell svc fuel)) = 0.
Proof.
  intros H1 H2. unfold compilation_cell.
  rewrite trace_sbind, trace_call, calls_to_app. cbn [calls_to]. rewrite H1.
  destruct (result_of _); try reflexivity.
  cbn [Nat.add]. now apply wait_loop_calls_its_api_only.
Qed.

Lemma calls_in_edge_packaging_cell (svc : services) (fuel : nat) (other : string) :
  String.eqb "create_edge_packaging_job" other = false ->
  String.eqb "describe_edge_packaging_job" other = false ->
  calls_to other (trace (edge_packaging_cell svc fuel)) = 0.
Proof.
  intros H1 H2. unfold edge_packaging_cell.
  rewrite trace_sbind, trace_call, calls_to_app. cbn [calls_to]. rewrite H1.
  destruct (result_of _); try reflexivity.
  cbn [Nat.add]. now apply wait_loop_calls_its_api_only.
Qed.

Lemma result_of_sbind {A B} (m : script A) (k : A -> script B) :
  result_of (sbind m k)
  = match result_of m with
    | Done a => result_of (k a)
    | Raised e => Raised e
    | Pending => Pending
    end.
Proof.
  destruct m as [t [a|e|]]; cbn [sbind result_of snd]; try reflexivity.
  now destruct (k a).
Qed.

Lemma compilation_cell_result (svc : services) (k : nat) (s : string) (fuel : nat) :
  create_compilation_job svc (compilation_job_name svc) = Ok tt ->
  (forall j, j < k ->
     exists sj, describe_compilation_job svc j = Ok sj /\
                In sj (running_set CompilationJob)) ->
  describe_compilation_job svc k = Ok s ->
  ~ In s (running_set CompilationJob) ->
  k < fuel ->
  result_of (compilation_cell svc fuel) = Done s.
Proof.
  intros Hcreate Hrun Hk Hs Hfuel.
  unfold compilation_cell. rewrite Hcreate.
  change (wait_compilation_job (compilation_job_name svc))
    with (run CompilationJob (compilation_job_name svc)
            (compilation_job_name svc)).
  rewrite run_eq.
  rewrite (@wait_loop_exits (describe_api CompilationJob)
             (compilation_job_name svc)
             (printed_name CompilationJob (compilation_job_name svc)
                (compilation_job_name svc))
             (running_test CompilationJob) (sleep_interval CompilationJob)
             (describe_compilation_job svc) k s 0 fuel); try assumption.
  - reflexivity.
  - intros j Hj. destruct (Hrun j Hj) as [sj [Hd Hin]].
    exists sj. split; [assumption|now apply running_test_iff].
  - now apply running_test_false_iff.
Qed.

Lemma edge_packaging_cell_result (svc : services) (k : nat) (s : string) (fuel : nat) :
  create_edge_packaging_job svc (edge_packaging_job_name svc)
    (compilation_job_name svc) = Ok tt ->
  (forall j, j < k ->
     exists sj, describe_edge_packaging_job svc j = Ok sj /\
                In sj (running_set EdgePackagingJob)) ->
  describe_edge_packaging_job svc k = Ok s ->
  ~ In s (running_set EdgePackagingJob) ->
  k < fuel ->
  result_of (edge_packaging_cell svc fuel) = Done s.
Proof.
  intros Hcreate Hrun Hk Hs Hfuel.
  unfold edge_packaging_cell. rewrite Hcreate.
  change (wait_edge_packaging_job (edge_packaging_job_name svc)
            (compilation_job_name svc))
    with (run EdgePackagingJob (edge_packaging_job_name svc)
            (compilation_job_name svc)).
  rewrite run_eq.
  rewrite (@wait_loop_exits (describe_api EdgePackagingJob)
             (edge_packaging_job_name svc)
             (printed_name EdgePackagingJob (edge_packaging_job_name svc)
                (compilation_job_name svc))
             (running_test EdgePackagingJob) (sleep_interval EdgePackagingJob)
             (describe_edge_packaging_job svc) k s 0 fuel); try assumption.
  - reflexivity.
  - intros j Hj. destruct (Hrun j Hj) as [sj [Hd Hin]].
    exists sj. split; [assumption|now apply running_test_iff].
  - now apply running_test_false_iff.
Qed.

(** X18.  The fleet job is created at most once, and it is created exactly
    when the compilation loop and the edge packaging loop have both ended
    normally and the caller's account was read.  The statuses on which the
    loops ended are not examined: whatever two statuses outside
    ['STARTING'] / ['INPROGRESS'] the jobs end on, failures included, the
    fleet job is requested, and the run ends as that request does. *)
Theorem fleet_job_only_after_both_loops (svc : services) (fuel : nat) :
  calls_to "iot.create_job"
    (trace (compilation_cell svc fuel ;;;
            edge_packaging_cell svc fuel ;;;
            deployment_cell svc)) <= 1 /\
  (calls_to "iot.create_job"
     (trace (compilation_cell svc fuel ;;;
             edge_packaging_cell svc fuel ;;;
             deployment_cell svc)) = 1 <->
   exists s1 s2 account_id,
     result_of (compilation_cell svc fuel) = Done s1 /\
     result_of (edge_packaging_cell svc fuel) = Done s2 /\
     get_caller_identity svc = Ok account_id) /\
  (forall k1 s1 k2 s2 account_id,
     create_compilation_job svc (compilation_job_name svc) = Ok tt ->
     (forall j, j < k1 ->
        exists sj, describe_compilation_job svc j = Ok sj /\
                   In sj (running_set CompilationJob)) ->
     describe_compilation_job svc k1 = Ok s1 ->
     ~ In s1 (running_set CompilationJob) ->
     create_edge_packaging_job svc (edge_packaging_job_name svc)
       (compilation_job_name svc) = Ok tt ->
     (forall j, j < k2 ->
        exists sj, describe_edge_packaging_job svc j = Ok sj /\
                   In sj (running_set EdgePackagingJob)) ->
     describe_edge_packaging_job svc k2 = Ok s2 ->
     ~ In s2 (running_set EdgePackagingJob) ->
     get_caller_identity svc = Ok account_id ->
     k1 < fuel -> k2 < fuel ->
     calls_to "iot.create_job"
       (trace (compilation_cell svc fuel ;;;
               edge_packaging_cell svc fuel ;;;
               deployment_cell svc)) = 1 /\
     result_of (compilation_cell svc fuel ;;;
                edge_packaging_cell svc fuel ;;;
                deployment_cell svc)
     = match create_job svc with
       | Ok _ => Done tt
       | Raise e => Raised e
       end).
Proof.
  assert (Hiff :
    calls_to "iot.create_job"
      (trace (compilation_cell svc fuel ;;;
              edge_packaging_cell svc fuel ;;;
              deployment_cell svc)) <= 1 /\
    (calls_to "iot.create_job"
       (trace (compilation_cell svc fuel ;;;
               edge_packaging_cell svc fuel ;;;
               deployment_cell svc)) = 1 <->
     exists s1 s2 account_id,
       result_of (compilation_cell svc fuel) = Done s1 /\
       result_of (edge_packaging_cell svc fuel) = Done s2 /\
       get_caller_identity svc = Ok account_id)).
  { rewrite trace_sbind, calls_to_app, calls_in_compilation_cell by reflexivity.
    cbn [Nat.add].
    destruct (result_of (compilation_cell svc fuel)) as [s1|e|];
      [|cbn; split; [lia|split; [discriminate|intros [? [? [? [? _]]]]; discriminate]]..].
    rewrite trace_sbind, calls_to_app, calls_in_edge_packaging_cell by reflexivity.
    cbn [Nat.add].
    destruct (result_of (edge_packaging_cell svc fuel)) as [s2|e|];
      [|cbn; split;
        [lia|split; [discriminate|intros [? [? [? [_ [? _]]]]]; discriminate]]..].
    unfold deployment_cell.
    destruct (get_caller_identity svc) as [account_id|e].
    - assert (H1 : calls_to "iot.create_job"
                     (trace (account_id0 <~ ([Call "get_caller_identity" "sts"],
                                             Done account_id) ;;
                             call "iot.create_job" "new_model" (create_job svc)))
                   = 1) by (destruct (create_job svc); reflexivity).
      cbn [call]. rewrite H1. split; [lia|].
      split; [intros _; now exists s1, s2, account_id|reflexivity].
    - cbn. split; [lia|].
      split; [discriminate|intros [? [? [? [_ [_ ?]]]]]; discriminate]. }
  destruct Hiff as [Hle Hiff]. split; [exact Hle|]. split; [exact Hiff|].
  intros k1 s1 k2 s2 account_id Hc1 Hr1 Hd1 Hs1 Hc2 Hr2 Hd2 Hs2 Hid Hf1 Hf2.
  pose proof (compilation_cell_result svc Hc1 Hr1 Hd1 Hs1 Hf1) as R1.
  pose proof (edge_packaging_cell_result svc Hc2 Hr2 Hd2 Hs2 Hf2) as R2.
  split.
  - apply Hiff. now exists s1, s2, account_id.
  - rewrite result_of_sbind, R1, result_of_sbind, R2.
    unfold deployment_cell. rewrite Hid. cbn [call sbind].
    destruct (create_job svc) as [[]|e]; reflexivity.
Qed.

Lemma fleet_job_only_after_both_loops_witness :
  calls_to "iot.create_job"
    (trace (compilation_cell failed_jobs 5 ;;;
            edge_packaging_cell failed_jobs 5 ;;;
            deployment_cell failed_jobs)) = 1 /\
  result_of (compilation_cell failed_jobs 5 ;;;
             edge_packaging_cell failed_jobs 5 ;;;
             deployment_cell failed_jobs) = Done tt.
Proof.
  destruct (fleet_job_only_after_both_loops failed_jobs 5) as [_ [_ H]].
  apply (H 2 "FAILED"%string 2 "FAILED"%string "123456789012"%string);
    try reflexivity; try lia.
  - intros j Hj. exists "INPROGRESS"%string. split; [|right; now left].
    destruct j as [|[|j]]; [reflexivity|reflexivity|lia].
  - intros [Hin|[Hin|[]]]; discriminate Hin.
  - intros j Hj. exists "STARTING"%string. split; [|now left].
    destruct j as [|[|j]]; [reflexivity|reflexivity|lia].
  - intros [Hin|[Hin|[]]]; discriminate Hin.
Defined.
